(** * The ST20 instruction decoder and lifter of the Boomerang decompiler

    A shallow embedding of
    [src/boomerang-plugins/decoder/st20/ST20Decoder.cpp]:
    the prefix-accumulating byte decoder [decodeInstruction], the secondary
    opcode tables of [getInstructionName], and the lifter
    [liftInstruction] / [instantiateRTL].

    Conventions.
    - [int] is a 32-bit two's complement integer: a [Z] kept in range by
      [wrap_int] after every arithmetic operation of the source.
    - [Byte] is [Init.Byte.byte]; [byte_val] gives its value in 0..255.
    - [Address] wraps an unsigned machine word of the host
      ([Address::value_type]); the class is declared outside these sources,
      so its width [addr_bits] is a parameter and [Address_plus] wraps
      modulo [2 ^ addr_bits].
    - The [while (true)] loop is a [Fixpoint] on a fuel counter, one unit per
      byte read; [None] means that the loop is still reading prefix bytes.
    - [assert(false)] is the outcome [AssertionFailure]. *)

From Stdlib Require Import ZArith List String Ascii Bool Lia.
From Stdlib Require Import HexString.
From Stdlib Require Init.Byte Strings.Byte.
Import ListNotations.

Local Open Scope string_scope.
Local Open Scope list_scope.
Local Open Scope Z_scope.

Definition Byte : Type := Init.Byte.byte.

(** ** Machine arithmetic *)

(** Value of a byte, 0..255. *)
Definition byte_val (b : Byte) : Z := Z.of_N (Strings.Byte.to_N b).

(** A mathematical integer brought back into the range of a C++ [int]. *)
Definition wrap_int (z : Z) : Z := (z + 2 ^ 31) mod 2 ^ 32 - 2 ^ 31.

(** [a << n] on [int]. *)
Definition int_shl (a n : Z) : Z := wrap_int (Z.shiftl a n).

(** [a + b] on [int]. *)
Definition int_add (a b : Z) : Z := wrap_int (a + b).

Section ST20.

(** Width of [Address::value_type] (and of host pointers). *)
Variable addr_bits : Z.

Definition Address := Z.

Definition addr_wrap (v : Z) : Address := v mod 2 ^ addr_bits.

(** [Address::operator+] with an integer offset. *)
Definition Address_plus (a : Address) (offset : Z) : Address :=
  addr_wrap (a + offset).

(** ** Data model *)

Definition ST20_INS_J : Z := 0.
Definition ST20_INS_LDLP : Z := 1.
Definition ST20_INS_LDNL : Z := 3.
Definition ST20_INS_LDC : Z := 4.
Definition ST20_INS_LDNLP : Z := 5.
Definition ST20_INS_LDL : Z := 7.
Definition ST20_INS_ADC : Z := 8.
Definition ST20_INS_CALL : Z := 9.
Definition ST20_INS_CJ : Z := 10.
Definition ST20_INS_AJW : Z := 11.
Definition ST20_INS_EQC : Z := 12.
Definition ST20_INS_STL : Z := 13.
Definition ST20_INS_STNL : Z := 14.

Definition OPR_MASK : Z := Z.shiftl 1 16.
Definition OPR_SIGN : Z := Z.shiftl 1 17.

Definition functionNames : list string :=
  [ "j"; "ldlp"; "pfix"; "ldnl"; "ldc"; "ldnlp"; "nfix"; "ldl";
    "adc"; "call"; "cj"; "ajw"; "eqc"; "stl"; "stnl"; "opr" ].

(** [functionNames[i]] for an index inside the array. *)
Definition functionName (i : Z) : string :=
  nth (Z.to_nat i) functionNames "".

(** Modelled from the spec: the instruction class [IClass] (declared
    outside these sources); the decoder assigns [NOP] only. *)
Inductive IClass : Type :=
  | NOP
  | IClass_other.

(** Modelled from the spec: operand expressions (the expression classes
    are declared outside these sources).  The decoder builds two kinds of
    constants, [Const::get] of an [int] and [Const::get] of an [Address];
    every other expression reaches the lifter from outside. *)
Inductive Exp : Type :=
  | Const_int (i : Z)
  | Const_addr (a : Address)
  | Exp_other (tag : nat).

(** Modelled from the spec: the decoded-instruction record
    [MachineInstruction] (declared outside these sources), with the fields
    that the decoder assigns.  The byte length [m_size] is a count of bytes,
    and [m_id] holds the value of the [int] expression assigned to it. *)
Record MachineInstruction : Type := mkInsn {
  m_addr : Address;
  m_id : Z;
  m_size : Z;
  m_mnem : string;
  m_opstr : string;
  m_operands : list Exp;
  m_variantID : string;
  m_valid : bool;
  m_iclass : IClass
}.

(** [result.m_size = n]. *)
Definition set_size (r : MachineInstruction) (n : Z) : MachineInstruction :=
  mkInsn (m_addr r) (m_id r) n (m_mnem r) (m_opstr r) (m_operands r)
         (m_variantID r) (m_valid r) (m_iclass r).

(** [result.m_valid = b]. *)
Definition set_valid (r : MachineInstruction) (b : bool) : MachineInstruction :=
  mkInsn (m_addr r) (m_id r) (m_size r) (m_mnem r) (m_opstr r) (m_operands r)
         (m_variantID r) b (m_iclass r).

(** ** Strings *)

(** [QString::toUpper]; mnemonics and variant identifiers are ASCII text. *)
Definition upper_ascii (c : ascii) : ascii :=
  let n := nat_of_ascii c in
  if ((97 <=? n) && (n <=? 122))%nat then ascii_of_nat (n - 32) else c.

Fixpoint toUpper (s : string) : string :=
  match s with
  | EmptyString => EmptyString
  | String c s' => String (upper_ascii c) (toUpper s')
  end.

(** [QString::remove(".")]: every occurrence of the one-character string. *)
Fixpoint remove_dot (s : string) : string :=
  match s with
  | EmptyString => EmptyString
  | String c s' =>
      if Ascii.eqb c "."%char then remove_dot s' else String c (remove_dot s')
  end.

(** [printf]'s [%x] / [%lx] of an unsigned value, after the literal "0x". *)
Definition hex_0x (v : Z) : string := HexString.of_N (Z.to_N v).

(** ** Secondary opcode tables *)

(** The [switch] of [getInstructionName] for a non-negative total; [None]
    when no [case] returns. *)
Definition opr_nonneg (prefixTotal : Z) : option string :=
  match prefixTotal with
  | 0x00 => Some "rev"
  | 0x01 => Some "lb"
  | 0x02 => Some "bsub"
  | 0x03 => Some "endp"
  | 0x04 => Some "diff"
  | 0x05 => Some "add"
  | 0x06 => Some "gcall"
  | 0x07 => Some "in"
  | 0x08 => Some "prod"
  | 0x09 => Some "gt"
  | 0x0A => Some "wsub"
  | 0x0B => Some "out"
  | 0x0C => Some "sub"
  | 0x0D => Some "startp"
  | 0x0E => Some "outbyte"
  | 0x0F => Some "outword"
  | 0x10 => Some "seterr"
  | 0x12 => Some "resetch"
  | 0x13 => Some "csub0"
  | 0x15 => Some "stopp"
  | 0x16 => Some "ladd"
  | 0x17 => Some "stlb"
  | 0x18 => Some "sthf"
  | 0x19 => Some "norm"
  | 0x1A => Some "ldiv"
  | 0x1B => Some "ldpi"
  | 0x1C => Some "stlf"
  | 0x1D => Some "xdble"
  | 0x1E => Some "ldpri"
  | 0x1F => Some "rem"
  | 0x20 => Some "ret"
  | 0x21 => Some "lend"
  | 0x22 => Some "ldtimer"
  | 0x29 => Some "testerr"
  | 0x2A => Some "testpranal"
  | 0x2B => Some "tin"
  | 0x2C => Some "div"
  | 0x2E => Some "dist"
  | 0x2F => Some "disc"
  | 0x30 => Some "diss"
  | 0x31 => Some "lmul"
  | 0x32 => Some "not"
  | 0x33 => Some "xor"
  | 0x34 => Some "bcnt"
  | 0x35 => Some "lshr"
  | 0x36 => Some "lshl"
  | 0x37 => Some "lsum"
  | 0x38 => Some "lsub"
  | 0x39 => Some "runp"
  | 0x3A => Some "xword"
  | 0x3B => Some "sb"
  | 0x3C => Some "gajw"
  | 0x3D => Some "savel"
  | 0x3E => Some "saveh"
  | 0x3F => Some "wcnt"
  | 0x40 => Some "shr"
  | 0x41 => Some "shl"
  | 0x42 => Some "mint"
  | 0x43 => Some "alt"
  | 0x44 => Some "altwt"
  | 0x45 => Some "altend"
  | 0x46 => Some "and"
  | 0x47 => Some "enbt"
  | 0x48 => Some "enbc"
  | 0x49 => Some "enbs"
  | 0x4A => Some "move"
  | 0x4B => Some "or"
  | 0x4C => Some "csngl"
  | 0x4D => Some "ccnt1"
  | 0x4E => Some "talt"
  | 0x4F => Some "ldiff"
  | 0x50 => Some "sthb"
  | 0x51 => Some "taltwt"
  | 0x52 => Some "sum"
  | 0x53 => Some "mul"
  | 0x54 => Some "sttimer"
  | 0x55 => Some "stoperr"
  | 0x56 => Some "cword"
  | 0x57 => Some "clrhalterr"
  | 0x58 => Some "sethalterr"
  | 0x59 => Some "testhalterr"
  | 0x5A => Some "dup"
  | 0x5B => Some "move2dinit"
  | 0x5C => Some "move2dall"
  | 0x5D => Some "move2dnonzero"
  | 0x5E => Some "move2dzero"
  | 0x5F => Some "gtu"
  | 0x63 => Some "unpacksn"
  | 0x64 => Some "slmul"
  | 0x65 => Some "sulmul"
  | 0x68 => Some "satadd"
  | 0x69 => Some "satsub"
  | 0x6A => Some "satmul"
  | 0x6C => Some "postnormsn"
  | 0x6D => Some "roundsn"
  | 0x6E => Some "ldtraph"
  | 0x6F => Some "sttraph"
  | 0x71 => Some "ldinf"
  | 0x72 => Some "fmul"
  | 0x73 => Some "cflerr"
  | 0x74 => Some "crcword"
  | 0x75 => Some "crcbyte"
  | 0x76 => Some "bitcnt"
  | 0x77 => Some "bitrevword"
  | 0x78 => Some "bitrevnbits"
  | 0x79 => Some "pop"
  | 0x7E => Some "ldmemstartval"
  | 0x81 => Some "wsubdb"
  | 0x9C => Some "fptesterr"
  | 0xB0 => Some "settimeslice"
  | 0xB8 => Some "xbword"
  | 0xB9 => Some "lbx"
  | 0xBA => Some "cb"
  | 0xBB => Some "cbu"
  | 0xC1 => Some "ssub"
  | 0xC4 => Some "intdis"
  | 0xC5 => Some "intenb"
  | 0xC6 => Some "ldtrapped"
  | 0xC7 => Some "cir"
  | 0xC8 => Some "ss"
  | 0xCA => Some "ls"
  | 0xCB => Some "sttrapped"
  | 0xCC => Some "ciru"
  | 0xCD => Some "gintdis"
  | 0xCE => Some "gintenb"
  | 0xF0 => Some "devlb"
  | 0xF1 => Some "devsb"
  | 0xF2 => Some "devls"
  | 0xF3 => Some "devss"
  | 0xF4 => Some "devlw"
  | 0xF5 => Some "devsw"
  | 0xF6 => Some "null"
  | 0xF7 => Some "null"
  | 0xF8 => Some "xsword"
  | 0xF9 => Some "lsx"
  | 0xFA => Some "cs"
  | 0xFB => Some "csu"
  | 0x17C => Some "lddevid"
  | _ => None
  end.

(** The [switch] of [getInstructionName] for a folded negative total. *)
Definition opr_negative (prefixTotal : Z) : option string :=
  match prefixTotal with
  | 0x00 => Some "swapqueue"
  | 0x01 => Some "swaptimer"
  | 0x02 => Some "insertqueue"
  | 0x03 => Some "timeslice"
  | 0x04 => Some "signal"
  | 0x05 => Some "wait"
  | 0x06 => Some "trapdis"
  | 0x07 => Some "trapenb"
  | 0x0B => Some "tret"
  | 0x0C => Some "ldshadow"
  | 0x0D => Some "stshadow"
  | 0x1F => Some "iret"
  | 0x24 => Some "devmove"
  | 0x2E => Some "restart"
  | 0x2F => Some "causeerror"
  | 0x30 => Some "nop"
  | 0x4C => Some "stclock"
  | 0x4D => Some "ldclock"
  | 0x4E => Some "clockdis"
  | 0x4F => Some "clockenb"
  | 0x8C => Some "ldprodid"
  | 0x8D => Some "reboot"
  | _ => None
  end.

(** [(~prefixTotal & ~0xF) | (prefixTotal & 0xF)]. *)
Definition fold_negative (prefixTotal : Z) : Z :=
  Z.lor (Z.land (Z.lnot prefixTotal) (Z.lnot 15)) (Z.land prefixTotal 15).

(** [ST20Decoder::getInstructionName]; [None] is [nullptr]. *)
Definition getInstructionName (prefixTotal : Z) : option string :=
  if prefixTotal >=? 0 then opr_nonneg prefixTotal
  else
    (* Total is negative, as a result of nfixes *)
    let prefixTotal := fold_negative prefixTotal in
    opr_negative prefixTotal.

(** ** The decoder *)

(** Host memory.  [Util::readByte] (declared outside these sources) is
    handed a bare host address and nothing else: it reads the byte there. *)
Definition Memory : Type := Z -> Byte.

Definition readByte (mem : Memory) (src : Z) : Byte := mem src.

(** What a call of [decodeInstruction] ends with: it returns a flag and
    leaves the instruction record it was given updated, or it stops in
    [assert(false)]. *)
Inductive Outcome : Type :=
  | Return (ret : bool) (result : MachineInstruction)
  | AssertionFailure.

(** Leaving the loop by [break]: [return result.m_valid]. *)
Definition loop_exit (result : MachineInstruction) : Outcome :=
  Return (m_valid result) result.

(** The body of [while (true)]; [total] and [result] are the loop's two
    mutable variables. *)
Fixpoint decode_loop (fuel : nat) (mem : Memory) (pc : Address) (delta : Z)
    (total : Z) (result : MachineInstruction) : option Outcome :=
  match fuel with
  | O => None
  | S fuel' =>
    let instructionData :=
      byte_val (readByte mem (addr_wrap (pc + delta + m_size result))) in
    let functionCode := Z.land (Z.shiftr instructionData 4) 0xF in
    let oper := Z.land instructionData 0xF in
    let result := set_size result (m_size result + 1) in
    match functionCode with
    | 0 => (* unconditional jump *)
      let total := int_add total oper in
      let jumpDest := Address_plus (Address_plus pc (m_size result)) total in
      Some (loop_exit
        (mkInsn pc ST20_INS_J (m_size result) "j" (hex_0x jumpDest)
                (m_operands result ++ [Const_addr jumpDest]) "J" true NOP))
    | 1 | 3 | 4 | 5 | 7 | 8 | 11 | 12 | 13 | 14 =>
      let total := int_add total oper in
      Some (loop_exit
        (mkInsn pc functionCode (m_size result) (functionName functionCode)
                (hex_0x (total mod 2 ^ 32))
                (m_operands result ++ [Const_int total])
                (toUpper (functionName functionCode)) true NOP))
    | 2 => (* prefix *)
      let total := int_shl (int_add total oper) 4 in
      decode_loop fuel' mem pc delta total result
    | 6 => (* negative prefix *)
      let total := int_shl (int_add total (Z.lnot oper)) 4 in
      decode_loop fuel' mem pc delta total result
    | 9 => (* call *)
      let total := int_add total oper in
      let callDest := Address_plus (Address_plus pc (m_size result)) total in
      Some (loop_exit
        (mkInsn pc ST20_INS_CALL (m_size result) "call" (hex_0x callDest)
                (m_operands result ++ [Const_addr callDest]) "CALL" true NOP))
    | 10 => (* cond jump *)
      let total := int_add total oper in
      let jumpDest := Address_plus (Address_plus pc (m_size result)) total in
      Some (loop_exit
        (mkInsn pc ST20_INS_CJ (m_size result) "cj" (hex_0x jumpDest)
                (m_operands result ++ [Const_addr jumpDest]) "CJ" true NOP))
    | 15 => (* operate *)
      let total := int_add total oper in
      match getInstructionName total with
      | None =>
        (* invalid or unknown instruction *)
        let result := set_valid result false in
        Some (Return false result)
      | Some insnName =>
        let id :=
          Z.lor OPR_MASK
            (if total >? 0 then total
             else Z.lor (Z.lor (Z.land (Z.lnot total) (Z.lnot 0xF))
                               (Z.land total 0xF))
                        OPR_SIGN) in
        Some (loop_exit
          (mkInsn pc id (m_size result) insnName "" (m_operands result)
                  (toUpper insnName) true NOP))
      end
    | _ => Some AssertionFailure
    end
  end.

(** [ST20Decoder::decodeInstruction(pc, delta, result)]. *)
Definition decodeInstruction (fuel : nat) (mem : Memory) (pc : Address)
    (delta : Z) (result : MachineInstruction) : option Outcome :=
  let total := 0 in (* Total value from all prefixes *)
  let result := set_size result 0 in
  decode_loop fuel mem pc delta total result.

(** ** The lifter *)

(** IR statements are built outside these sources. *)
Variable Statement : Type.

(** [Exp::isIntConst] and [Const::getInt], declared outside these sources. *)
Variable isIntConst : Exp -> bool.
Variable getInt : Exp -> Z.

(** Modelled from the spec: the RTL, an ordered sequence of statements
    tagged with an address (the class [RTL] is not among the sources). *)
Record RTL : Type := mkRTL {
  rtl_addr : Address;
  rtl_stmts : list Statement
}.

(** Modelled from the spec: a parametrized template of the semantic
    dictionary; the operand list is substituted positionally into its
    parameter slots and it expands into statements. *)
Definition Template : Type := list Exp -> list Statement.

(** Modelled from the spec: the semantic template dictionary
    ([RTLInstDict], not among the sources), a map from the variant
    identifier to a template. *)
Record RTLInstDict : Type := mkDict {
  dict_lookup : string -> option Template
}.

(** Modelled from the spec: [RTLInstDict::instantiateRTL(name, pc, actuals)];
    a miss gives no RTL ([nullptr]), a hit the template's statements tagged
    with the instruction's address. *)
Definition RTLInstDict_instantiateRTL (dict : RTLInstDict) (name : string)
    (natPC : Address) (actuals : list Exp) : option RTL :=
  match dict_lookup dict name with
  | None => None
  | Some template => Some (mkRTL natPC (template actuals))
  end.

Record DecodeResult : Type := mkDecodeResult {
  iclass : IClass;
  reDecode : bool;
  rtl : option RTL
}.

(** Modelled from the spec: [DecodeResult::valid()] (not among the sources);
    a lift failure leaves the RTL empty. *)
Definition valid (lifted : DecodeResult) : bool :=
  match rtl lifted with
  | Some _ => true
  | None => false
  end.

(** The path [m_prog->getProject()->getSettings()->debugDecoder]; the three
    classes are declared outside these sources. *)
Record Settings : Type := mkSettings { debugDecoder : bool }.
Record Project : Type := mkProject { getSettings : Settings }.
Record Prog : Type := mkProg { getProject : Project }.

(** The decoder object: [m_prog] is null until [initialize] has run. *)
Record ST20Decoder : Type := mkDecoder {
  m_prog : option Prog;
  m_rtlDict : RTLInstDict
}.

(** What is written to [q_cout], one item per [<<] (or [print]) call. *)
Inductive Out : Type :=
  | OutAddress (a : Address)
  | OutStr (s : string)
  | OutNumber (val base : Z)   (* the string [QString::number(val, base)] *)
  | OutInt (val : Z)           (* an [int], in signed decimal *)
  | OutPrint (e : Exp)         (* [e->print(q_cout)] *)
  | OutChar (c : ascii).

(** The body of the [for] loop over the operands. *)
Definition print_operand (itd : Exp) : list Out :=
  (if isIntConst itd then
     let val := getInt itd in
     if (val >? 100) || (val <? -100) then [OutStr "0x"; OutNumber val 16]
     else [OutInt val]
   else [OutPrint itd])
  ++ [OutStr " "].

Definition debug_enabled (this : ST20Decoder) : bool :=
  match m_prog this with
  | Some prog => debugDecoder (getSettings (getProject prog))
  | None => false
  end.

(** [ST20Decoder::instantiateRTL]: the output on [stdout] and the RTL. *)
Definition instantiateRTL (this : ST20Decoder) (insn : MachineInstruction)
    : list Out * option RTL :=
  (* Take the argument, convert it to upper case and remove any .'s *)
  let sanitizedName := toUpper (remove_dot (m_variantID insn)) in
  let q_cout :=
    if debug_enabled this then
      (* Display a disassembly of this instruction if requested *)
      [OutAddress (m_addr insn); OutStr ": "; OutStr (m_variantID insn);
       OutStr " "]
      ++ flat_map print_operand (m_operands insn)
      ++ [OutChar "010"%char]
    else [] in
  (q_cout,
   RTLInstDict_instantiateRTL (m_rtlDict this) sanitizedName (m_addr insn)
                              (m_operands insn)).

(** [ST20Decoder::liftInstruction]: the output, the returned flag and the
    updated [lifted]. *)
Definition liftInstruction (this : ST20Decoder) (insn : MachineInstruction)
    (lifted : DecodeResult) : list Out * (bool * DecodeResult) :=
  let '(q_cout, r) := instantiateRTL this insn in
  let lifted := mkDecodeResult NOP false r in
  (q_cout, (valid lifted, lifted)).

(** ** Reference definitions

    The vocabulary of the statements below: the two nibbles of a byte, the
    bytes found in memory from the instruction's first byte on, and the
    accumulation rule written byte by byte as the specification words it. *)

(** The 4-bit function code of an instruction byte. *)
Definition functionCode_of (b : Byte) : Z := Z.land (Z.shiftr (byte_val b) 4) 0xF.

(** The 4-bit operand field. *)
Definition oper_of (b : Byte) : Z := Z.land (byte_val b) 0xF.

(** A prefix ([pfix], code 2) or negative-prefix ([nfix], code 6) byte. *)
Definition is_prefix (b : Byte) : bool :=
  (functionCode_of b =? 2) || (functionCode_of b =? 6).

(** The byte that the loop reads when [result.m_size] is [off]. *)
Definition byte_at (mem : Memory) (pc : Address) (delta off : Z) : Byte :=
  readByte mem (addr_wrap (pc + delta + off)).

(** The [n] bytes read from offset [start] on. *)
Definition bytes_at (mem : Memory) (pc : Address) (delta start : Z) (n : nat)
    : list Byte :=
  map (fun i => byte_at mem pc delta (start + Z.of_nat i)) (seq 0 n).

(** Memory holds [bytes] at the instruction's address. *)
Definition stream_at (mem : Memory) (pc : Address) (delta : Z)
    (bytes : list Byte) : Prop :=
  bytes_at mem pc delta 0 (List.length bytes) = bytes.

(** One byte of the accumulation rule: a prefix does
    [total = (total + operand) << 4], a negative prefix
    [total = (total + ~operand) << 4], a terminal byte [total += operand];
    all of it in the arithmetic of [int]. *)
Definition accumulate_byte (total : Z) (b : Byte) : Z :=
  if functionCode_of b =? 2 then int_shl (int_add total (oper_of b)) 4
  else if functionCode_of b =? 6 then
    int_shl (int_add total (Z.lnot (oper_of b))) 4
  else int_add total (oper_of b).

Definition accumulate (bytes : list Byte) : Z :=
  fold_left accumulate_byte bytes 0.

(** The same rule on unbounded integers. *)
Definition accumulate_byte_exact (total : Z) (b : Byte) : Z :=
  if functionCode_of b =? 2 then (total + oper_of b) * 16
  else if functionCode_of b =? 6 then (total + (- oper_of b - 1)) * 16
  else total + oper_of b.

Definition accumulate_exact (bytes : list Byte) : Z :=
  fold_left accumulate_byte_exact bytes 0.

(** The load/store/arithmetic-immediate family of terminal codes. *)
Definition is_immediate_code (fc : Z) : bool :=
  existsb (Z.eqb fc)
    [ST20_INS_LDLP; ST20_INS_LDNL; ST20_INS_LDC; ST20_INS_LDNLP; ST20_INS_LDL;
     ST20_INS_ADC; ST20_INS_AJW; ST20_INS_EQC; ST20_INS_STL; ST20_INS_STNL].

(** Unconditional jump, conditional jump and call. *)
Definition is_jump_code (fc : Z) : bool :=
  existsb (Z.eqb fc) [ST20_INS_J; ST20_INS_CALL; ST20_INS_CJ].

(** The composite identifier that the [operate] case assigns. *)
Definition operate_id (total : Z) : Z :=
  Z.lor OPR_MASK
    (if total >? 0 then total else Z.lor (fold_negative total) OPR_SIGN).

(** What a terminal byte of function code [fc] leaves in the record [r]
    and in the returned flag [ret], family by family: [total] is the
    accumulated total, [size] the number of bytes consumed and [operands]
    the operand list that the record came with. *)
Definition terminal_facts (pc : Address) (fc total size : Z)
    (operands : list Exp) (ret : bool) (r : MachineInstruction) : Prop :=
  ret = m_valid r /\
  m_size r = size /\
  (is_jump_code fc = true ->
     ret = true /\ m_addr r = pc /\ m_id r = fc /\
     m_operands r = operands ++ [Const_addr (addr_wrap (pc + size + total))]) /\
  (is_immediate_code fc = true ->
     ret = true /\ m_addr r = pc /\ m_id r = fc /\
     m_mnem r = functionName fc /\
     m_variantID r = toUpper (functionName fc) /\
     m_operands r = operands ++ [Const_int total]) /\
  (fc = 15 ->
     m_operands r = operands /\
     match getInstructionName total with
     | None => ret = false /\ m_valid r = false
     | Some insnName =>
         ret = true /\ m_addr r = pc /\ m_id r = operate_id total /\
         m_mnem r = insnName /\ m_variantID r = toUpper insnName
     end).

(** The lookup key as the specification words it: separators stripped,
    then upper case; the separator is the dot. *)
Definition is_separator (c : ascii) : bool := Ascii.eqb c "."%char.

Fixpoint string_filter (keep : ascii -> bool) (s : string) : string :=
  match s with
  | EmptyString => EmptyString
  | String c s' =>
      if keep c then String c (string_filter keep s') else string_filter keep s'
  end.

Fixpoint string_forallb (p : ascii -> bool) (s : string) : bool :=
  match s with
  | EmptyString => true
  | String c s' => p c && string_forallb p s'
  end.

Definition is_lower (c : ascii) : bool :=
  ((97 <=? nat_of_ascii c) && (nat_of_ascii c <=? 122))%nat.

Definition lookup_key (variantID : string) : string :=
  toUpper (string_filter (fun c => negb (is_separator c)) variantID).

(** The trace line as the specification words it: address, variant
    identifier, then every integer constant in hexadecimal when its
    absolute value exceeds 100 and in signed decimal otherwise. *)
Definition render_operand (e : Exp) : list Out :=
  if isIntConst e then
    if Z.abs (getInt e) >? 100 then [OutStr "0x"; OutNumber (getInt e) 16; OutStr " "]
    else [OutInt (getInt e); OutStr " "]
  else [OutPrint e; OutStr " "].

Definition trace_line (insn : MachineInstruction) : list Out :=
  OutAddress (m_addr insn) :: OutStr ": " :: OutStr (m_variantID insn)
  :: OutStr " " :: flat_map render_operand (m_operands insn)
  ++ [OutChar "010"%char].

(** ** Concrete inputs *)

(** A memory holding [bytes] from host address [base] on and [fill]
    everywhere else. *)
Definition mem_of_list (base : Z) (bytes : list Byte) (fill : Byte) : Memory :=
  fun a =>
    if (base <=? a) && (a <? base + Z.of_nat (List.length bytes))
    then nth (Z.to_nat (a - base)) bytes fill
    else fill.

(** A freshly constructed instruction record. *)
Definition blank_insn : MachineInstruction :=
  mkInsn 0 0 0 "" "" [] "" false IClass_other.

(** ** Reference definitions for the further properties *)

(** The whole outcome of the iteration at a terminal byte of function code
    [fc], written family by family: [total] is the accumulated total,
    [size] the number of bytes consumed and [r] the record that the caller
    handed in. *)
Definition terminal_result (pc : Address) (fc total size : Z)
    (r : MachineInstruction) : Outcome :=
  if is_jump_code fc then
    let dest := addr_wrap (pc + size + total) in
    Return true
      (mkInsn pc fc size (functionName fc) (hex_0x dest)
              (m_operands r ++ [Const_addr dest]) (toUpper (functionName fc))
              true NOP)
  else if is_immediate_code fc then
    Return true
      (mkInsn pc fc size (functionName fc) (hex_0x (total mod 2 ^ 32))
              (m_operands r ++ [Const_int total]) (toUpper (functionName fc))
              true NOP)
  else
    match getInstructionName total with
    | Some insnName =>
        Return true
          (mkInsn pc (operate_id total) size insnName "" (m_operands r)
                  (toUpper insnName) true NOP)
    | None =>
        Return false
          (mkInsn (m_addr r) (m_id r) size (m_mnem r) (m_opstr r)
                  (m_operands r) (m_variantID r) false (m_iclass r))
    end.

(** The number that a list of hexadecimal digits spells, most significant
    digit first. *)
Definition hex_value (digits : list Z) : Z :=
  fold_left (fun acc d => acc * 16 + d) digits 0.

(** The integers from [lo] on, [n] of them. *)
Definition Z_range (lo : Z) (n : nat) : list Z :=
  map (fun i => lo + Z.of_nat i) (seq 0 n).

(** Equality of two results of [getInstructionName]. *)
Definition same_name (a b : option string) : bool :=
  match a, b with
  | Some x, Some y => String.eqb x y
  | None, None => true
  | _, _ => false
  end.

(** A [pfix] byte, and an [nfix] byte. *)
Definition is_pfix (b : Byte) : bool := functionCode_of b =? 2.
Definition is_nfix (b : Byte) : bool := functionCode_of b =? 6.

(** Inputs of the instances: the bytes of [ldc 0x203], of an operate byte
    with the unnamed total 0x11 and of [call], and the records that
    decoding them at address 4096 gives. *)
Definition mem_ldc : Memory :=
  mem_of_list 4096 [Init.Byte.x22; Init.Byte.x20; Init.Byte.x43] Init.Byte.x00.

Definition insn_ldc : MachineInstruction :=
  mkInsn 4096 4 3 "ldc" "0x203" [Const_int 0x203] "LDC" true NOP.

Definition mem_miss : Memory :=
  mem_of_list 4096 [Init.Byte.x21; Init.Byte.xf1] Init.Byte.x00.

Definition insn_miss : MachineInstruction :=
  mkInsn 0 0 2 "" "" [] "" false IClass_other.

Definition mem_call : Memory :=
  mem_of_list 4096 [Init.Byte.x22; Init.Byte.x20; Init.Byte.x93] Init.Byte.x00.

Definition insn_call : MachineInstruction :=
  mkInsn 4096 9 3 "call" "0x1206" [Const_addr 0x1206] "CALL" true NOP.

(** * Properties *)

(** ** Arithmetic of the two nibbles *)

Lemma land_15_range (x : Z) : 0 <= Z.land x 0xF <= 15.
Proof.
  pose proof (Z.land_ones x 4 ltac:(lia)) as E.
  change (Z.ones 4) with 15 in E. change (2 ^ 4) with 16 in E.
  rewrite E. pose proof (Z.mod_pos_bound x 16 eq_refl). lia.
Qed.

Lemma functionCode_range (b : Byte) : 0 <= functionCode_of b <= 15.
Proof. apply land_15_range. Qed.

Lemma oper_range (b : Byte) : 0 <= oper_of b <= 15.
Proof. apply land_15_range. Qed.

Lemma functionCode_cases (b : Byte) :
  In (functionCode_of b) [0; 1; 2; 3; 4; 5; 6; 7; 8; 9; 10; 11; 12; 13; 14; 15].
Proof.
  pose proof (functionCode_range b) as H. cbn [In].
  assert (functionCode_of b = 0 \/ functionCode_of b = 1 \/ functionCode_of b = 2
          \/ functionCode_of b = 3 \/ functionCode_of b = 4 \/ functionCode_of b = 5
          \/ functionCode_of b = 6 \/ functionCode_of b = 7 \/ functionCode_of b = 8
          \/ functionCode_of b = 9 \/ functionCode_of b = 10 \/ functionCode_of b = 11
          \/ functionCode_of b = 12 \/ functionCode_of b = 13 \/ functionCode_of b = 14
          \/ functionCode_of b = 15) as C by lia.
  intuition auto.
Qed.

(** ** One iteration of the loop *)

(** The loop body with the function code and the operand of the byte under
    the cursor named. *)
Lemma decode_loop_unfold fuel mem pc delta total r :
  decode_loop (S fuel) mem pc delta total r =
  let b := byte_at mem pc delta (m_size r) in
  let result := set_size r (m_size r + 1) in
  match functionCode_of b with
  | 0 =>
    let total := int_add total (oper_of b) in
    let jumpDest := Address_plus (Address_plus pc (m_size result)) total in
    Some (loop_exit
      (mkInsn pc ST20_INS_J (m_size result) "j" (hex_0x jumpDest)
              (m_operands result ++ [Const_addr jumpDest]) "J" true NOP))
  | 1 | 3 | 4 | 5 | 7 | 8 | 11 | 12 | 13 | 14 =>
    let total := int_add total (oper_of b) in
    Some (loop_exit
      (mkInsn pc (functionCode_of b) (m_size result)
              (functionName (functionCode_of b))
              (hex_0x (total mod 2 ^ 32))
              (m_operands result ++ [Const_int total])
              (toUpper (functionName (functionCode_of b))) true NOP))
  | 2 =>
    decode_loop fuel mem pc delta (int_shl (int_add total (oper_of b)) 4) result
  | 6 =>
    decode_loop fuel mem pc delta
      (int_shl (int_add total (Z.lnot (oper_of b))) 4) result
  | 9 =>
    let total := int_add total (oper_of b) in
    let callDest := Address_plus (Address_plus pc (m_size result)) total in
    Some (loop_exit
      (mkInsn pc ST20_INS_CALL (m_size result) "call" (hex_0x callDest)
              (m_operands result ++ [Const_addr callDest]) "CALL" true NOP))
  | 10 =>
    let total := int_add total (oper_of b) in
    let jumpDest := Address_plus (Address_plus pc (m_size result)) total in
    Some (loop_exit
      (mkInsn pc ST20_INS_CJ (m_size result) "cj" (hex_0x jumpDest)
              (m_operands result ++ [Const_addr jumpDest]) "CJ" true NOP))
  | 15 =>
    let total := int_add total (oper_of b) in
    match getInstructionName total with
    | None => Some (Return false (set_valid result false))
    | Some insnName =>
      Some (loop_exit
        (mkInsn pc
           (Z.lor OPR_MASK
              (if total >? 0 then total
               else Z.lor (fold_negative total) OPR_SIGN))
           (m_size result) insnName "" (m_operands result)
           (toUpper insnName) true NOP))
    end
  | _ => Some AssertionFailure
  end.
Proof. reflexivity. Qed.

Lemma decode_loop_prefix fuel mem pc delta total r :
  is_prefix (byte_at mem pc delta (m_size r)) = true ->
  decode_loop (S fuel) mem pc delta total r =
  decode_loop fuel mem pc delta
    (accumulate_byte total (byte_at mem pc delta (m_size r)))
    (set_size r (m_size r + 1)).
Proof.
  intros H. rewrite decode_loop_unfold. cbv zeta.
  unfold is_prefix in H. unfold accumulate_byte.
  apply orb_true_iff in H. destruct H as [H | H]; apply Z.eqb_eq in H;
    rewrite H; reflexivity.
Qed.

(** At a terminal byte the loop is left in this iteration: the fuel that
    remains does not matter. *)
Lemma decode_loop_terminal fuel mem pc delta total r :
  is_prefix (byte_at mem pc delta (m_size r)) = false ->
  decode_loop (S fuel) mem pc delta total r =
  decode_loop 1 mem pc delta total r.
Proof.
  intros H. rewrite !decode_loop_unfold. cbv zeta.
  unfold is_prefix in H. apply orb_false_iff in H. destruct H as [H2 H6].
  apply Z.eqb_neq in H2, H6.
  pose proof (functionCode_cases (byte_at mem pc delta (m_size r))) as C.
  cbn [In] in C.
  repeat (destruct C as [C | C]; [ rewrite <- C in *; try reflexivity; congruence | ]).
  contradiction.
Qed.

(** ** Bytes in memory *)

Lemma set_size_same r : set_size r (m_size r) = r.
Proof. destruct r; reflexivity. Qed.

Lemma set_size_twice r a b : set_size (set_size r a) b = set_size r b.
Proof. reflexivity. Qed.

Lemma bytes_at_S mem pc delta start n :
  bytes_at mem pc delta start (S n) =
  byte_at mem pc delta start :: bytes_at mem pc delta (start + 1) n.
Proof.
  unfold bytes_at. cbn [seq map]. rewrite Z.add_0_r. f_equal.
  rewrite <- seq_shift, map_map. apply map_ext. intros i.
  f_equal. lia.
Qed.

Lemma bytes_at_length mem pc delta start n :
  List.length (bytes_at mem pc delta start n) = n.
Proof. unfold bytes_at. now rewrite length_map, length_seq. Qed.

Lemma bytes_at_app mem pc delta start n m :
  bytes_at mem pc delta start (n + m) =
  bytes_at mem pc delta start n
  ++ bytes_at mem pc delta (start + Z.of_nat n) m.
Proof.
  revert start. induction n as [| n IH]; intros start.
  - cbn [Nat.add bytes_at seq map app]. now rewrite Z.add_0_r.
  - cbn [Nat.add]. rewrite !bytes_at_S, IH. cbn [app]. do 3 f_equal. lia.
Qed.

(** A stream splits into its leading bytes and its last byte. *)
Lemma stream_at_snoc mem pc delta pre t :
  stream_at mem pc delta (pre ++ [t]) ->
  bytes_at mem pc delta 0 (List.length pre) = pre /\
  byte_at mem pc delta (Z.of_nat (List.length pre)) = t.
Proof.
  unfold stream_at. rewrite length_app. cbn [List.length].
  rewrite bytes_at_app, bytes_at_S. cbn [bytes_at seq map]. intros H.
  apply app_inj_tail_iff.
  - exact H.
Qed.

Lemma accumulate_byte_terminal total b :
  is_prefix b = false -> accumulate_byte total b = int_add total (oper_of b).
Proof.
  unfold is_prefix, accumulate_byte. intros H.
  apply orb_false_iff in H. destruct H as [-> ->]. reflexivity.
Qed.

(** ** The whole loop *)

(** A run of [n] prefix bytes followed by a terminal byte: the loop reaches
    the terminal byte with the folded total and [n] bytes counted. *)
Lemma decode_loop_chain mem pc delta n :
  forall fuel total r,
    (n < fuel)%nat ->
    forallb is_prefix (bytes_at mem pc delta (m_size r) n) = true ->
    is_prefix (byte_at mem pc delta (m_size r + Z.of_nat n)) = false ->
    decode_loop fuel mem pc delta total r =
    decode_loop 1 mem pc delta
      (fold_left accumulate_byte (bytes_at mem pc delta (m_size r) n) total)
      (set_size r (m_size r + Z.of_nat n)).
Proof.
  induction n as [| n IH]; intros fuel total r Hfuel Hpre Hterm.
  - destruct fuel as [| fuel]; [lia |].
    cbn [Z.of_nat] in *. rewrite Z.add_0_r in *. rewrite set_size_same.
    cbn [bytes_at seq map fold_left]. now apply decode_loop_terminal.
  - destruct fuel as [| fuel]; [lia |].
    rewrite bytes_at_S in Hpre |- *. cbn [forallb fold_left] in Hpre |- *.
    apply andb_true_iff in Hpre. destruct Hpre as [Hb Hpre].
    rewrite decode_loop_prefix by exact Hb.
    rewrite (IH fuel); cbn [m_size set_size].
    + rewrite set_size_twice. do 2 f_equal. lia.
    + lia.
    + exact Hpre.
    + rewrite <- Hterm. do 2 f_equal. lia.
Qed.

(** Conversely, a loop that ended went through a run of prefix bytes and
    ended at the first terminal byte. *)
Lemma decode_loop_inv mem pc delta fuel :
  forall total r o,
    decode_loop fuel mem pc delta total r = Some o ->
    exists n,
      (n < fuel)%nat /\
      forallb is_prefix (bytes_at mem pc delta (m_size r) n) = true /\
      is_prefix (byte_at mem pc delta (m_size r + Z.of_nat n)) = false /\
      decode_loop 1 mem pc delta
        (fold_left accumulate_byte (bytes_at mem pc delta (m_size r) n) total)
        (set_size r (m_size r + Z.of_nat n)) = Some o.
Proof.
  induction fuel as [| fuel IH]; intros total r o H.
  - discriminate H.
  - destruct (is_prefix (byte_at mem pc delta (m_size r))) eqn:Hb.
    + rewrite decode_loop_prefix in H by exact Hb.
      apply IH in H. destruct H as (n & Hn & Hpre & Hterm & H).
      cbn [m_size set_size] in *. rewrite set_size_twice in H.
      exists (S n). rewrite bytes_at_S. cbn [forallb fold_left].
      rewrite Hb, Hpre. cbn [andb].
      replace (m_size r + Z.of_nat (S n)) with (m_size r + 1 + Z.of_nat n) by lia.
      repeat split; [lia | exact Hterm | exact H].
    + exists 0%nat. cbn [Z.of_nat bytes_at seq map forallb fold_left].
      rewrite Z.add_0_r, set_size_same.
      rewrite decode_loop_terminal in H by exact Hb.
      repeat split; [lia | exact Hb | exact H].
Qed.

(** ** The terminal byte *)

Lemma Address_plus_plus a m n :
  Address_plus (Address_plus a m) n = addr_wrap (a + m + n).
Proof. unfold Address_plus, addr_wrap. apply Zplus_mod_idemp_l. Qed.

(** The iteration at a terminal byte; [total] is the loop's total before
    this byte. *)
Lemma decode_loop_last mem pc delta total r :
  let b := byte_at mem pc delta (m_size r) in
  is_prefix b = false ->
  exists ret r',
    decode_loop 1 mem pc delta total r = Some (Return ret r') /\
    terminal_facts pc (functionCode_of b) (int_add total (oper_of b))
                   (m_size r + 1) (m_operands r) ret r'.
Proof.
  intros b H. rewrite decode_loop_unfold. cbv zeta. unfold terminal_facts.
  fold b. set (fc := functionCode_of b). set (T := int_add total (oper_of b)).
  unfold is_prefix in H. fold fc in H.
  apply orb_false_iff in H. destruct H as [H2 H6]. apply Z.eqb_neq in H2, H6.
  pose proof (functionCode_cases b) as C. fold fc in C. cbn [In] in C.
  unfold loop_exit.
  repeat (destruct C as [C | C];
    [ rewrite <- C in *; try congruence;
      try (eexists; eexists; split; [reflexivity |];
           cbn [m_valid m_size m_addr m_id m_operands m_mnem m_variantID set_size];
           rewrite ?Address_plus_plus;
           repeat split; try reflexivity; intros; try discriminate) | ]);
    try contradiction.
  destruct (getInstructionName T) as [insnName |];
    eexists; eexists; (split; [reflexivity |]);
    cbn [m_valid m_size m_addr m_id m_operands m_mnem m_variantID set_size set_valid];
    repeat split; try reflexivity; intros; try discriminate.
Qed.

(** A chain of prefix bytes and its terminal byte, from the entry of
    [decodeInstruction]: enough fuel gives the result. *)
Lemma decode_chain mem pc delta result prefixes terminal fuel :
  forallb is_prefix prefixes = true ->
  is_prefix terminal = false ->
  stream_at mem pc delta (prefixes ++ [terminal]) ->
  (List.length prefixes < fuel)%nat ->
  exists ret r,
    decodeInstruction fuel mem pc delta result = Some (Return ret r) /\
    terminal_facts pc (functionCode_of terminal)
                   (accumulate (prefixes ++ [terminal]))
                   (Z.of_nat (List.length prefixes) + 1)
                   (m_operands result) ret r.
Proof.
  intros Hpre Hterm Hmem Hfuel.
  apply stream_at_snoc in Hmem. destruct Hmem as [Hbytes Hlast].
  unfold decodeInstruction. cbv zeta.
  rewrite (decode_loop_chain mem pc delta (List.length prefixes));
    cbn [m_size set_size]; rewrite ?Z.add_0_l, ?Hbytes, ?Hlast; auto.
  rewrite set_size_twice.
  pose proof (decode_loop_last mem pc delta (fold_left accumulate_byte prefixes 0)
                (set_size result (Z.of_nat (List.length prefixes)))) as L.
  cbv zeta in L. cbn [m_size m_operands set_size] in L. rewrite Hlast in L.
  specialize (L Hterm). destruct L as (ret & r & L & F).
  exists ret, r. split; [exact L |].
  unfold accumulate. rewrite fold_left_app. cbn [fold_left].
  rewrite accumulate_byte_terminal by exact Hterm. exact F.
Qed.

(** Every result of [decodeInstruction] comes from such a chain read from
    memory. *)
Lemma decode_result_inv mem pc delta result fuel o :
  decodeInstruction fuel mem pc delta result = Some o ->
  exists n ret r,
    o = Return ret r /\ (n < fuel)%nat /\
    forallb is_prefix (bytes_at mem pc delta 0 n) = true /\
    is_prefix (byte_at mem pc delta (Z.of_nat n)) = false /\
    terminal_facts pc (functionCode_of (byte_at mem pc delta (Z.of_nat n)))
                   (accumulate (bytes_at mem pc delta 0 (S n)))
                   (Z.of_nat n + 1) (m_operands result) ret r.
Proof.
  unfold decodeInstruction. cbv zeta. intros H.
  apply decode_loop_inv in H. cbn [m_size set_size] in H.
  destruct H as (n & Hn & Hpre & Hterm & H).
  rewrite Z.add_0_l in *. rewrite set_size_twice in H.
  pose proof (decode_loop_last mem pc delta
                (fold_left accumulate_byte (bytes_at mem pc delta 0 n) 0)
                (set_size result (Z.of_nat n))) as L.
  cbv zeta in L. cbn [m_size m_operands set_size] in L.
  specialize (L Hterm). destruct L as (ret & r & L & F).
  rewrite L in H. injection H as <-.
  exists n, ret, r.
  split; [reflexivity |]. split; [exact Hn |]. split; [exact Hpre |].
  split; [exact Hterm |].
  replace (S n) with (n + 1)%nat by lia.
  rewrite bytes_at_app, bytes_at_S. cbn [bytes_at seq map]. rewrite Z.add_0_l.
  unfold accumulate. rewrite fold_left_app. cbn [fold_left].
  rewrite accumulate_byte_terminal by exact Hterm. exact F.
Qed.

(** ** The accumulation rule and the range of [int] *)

Lemma wrap_int_small z : - 2 ^ 31 <= z < 2 ^ 31 -> wrap_int z = z.
Proof.
  intros H. unfold wrap_int. rewrite Z.mod_small; lia.
Qed.

Lemma wrap_int_range z : - 2 ^ 31 <= wrap_int z < 2 ^ 31.
Proof.
  unfold wrap_int. pose proof (Z.mod_pos_bound (z + 2 ^ 31) (2 ^ 32) eq_refl). lia.
Qed.

Lemma is_prefix_cases b :
  is_prefix b = true -> functionCode_of b = 2 \/ functionCode_of b = 6.
Proof.
  unfold is_prefix. intros H. apply orb_true_iff in H.
  destruct H as [H | H]; apply Z.eqb_eq in H; auto.
Qed.

(** After [k] prefix bytes the unbounded total is below [18 * 16 ^ k]. *)
Lemma accumulate_exact_bound l :
  forallb is_prefix l = true ->
  Z.abs (fold_left accumulate_byte_exact l 0)
  <= 18 * 16 ^ Z.of_nat (List.length l) - 18.
Proof.
  induction l as [| x l IH] using rev_ind; intros H.
  - cbn. lia.
  - rewrite forallb_app in H. apply andb_true_iff in H. destruct H as [Hl Hx].
    cbn [forallb] in Hx. rewrite andb_true_r in Hx.
    specialize (IH Hl). rewrite fold_left_app, length_app. cbn [fold_left List.length].
    replace (Z.of_nat (List.length l + 1)) with (Z.succ (Z.of_nat (List.length l))) by lia.
    rewrite Z.pow_succ_r by lia.
    pose proof (oper_range x) as Ho.
    set (t := fold_left accumulate_byte_exact l 0) in *.
    unfold accumulate_byte_exact.
    destruct (is_prefix_cases x Hx) as [E | E]; rewrite E; cbn [Z.eqb Pos.eqb]; lia.
Qed.

Lemma pow16_le k : (k <= 6)%nat -> 16 ^ Z.of_nat k <= 16 ^ 6.
Proof. intros H. apply Z.pow_le_mono_r; lia. Qed.

(** Up to six prefix bytes never leave the range of [int]. *)
Lemma accumulate_prefixes_exact l :
  forallb is_prefix l = true -> (List.length l <= 6)%nat ->
  fold_left accumulate_byte l 0 = fold_left accumulate_byte_exact l 0.
Proof.
  induction l as [| x l IH] using rev_ind; intros H Hlen.
  - reflexivity.
  - rewrite length_app in Hlen. cbn [List.length] in Hlen.
    rewrite forallb_app in H. apply andb_true_iff in H. destruct H as [Hl Hx].
    cbn [forallb] in Hx. rewrite andb_true_r in Hx.
    rewrite !fold_left_app. cbn [fold_left]. rewrite IH by (auto; lia).
    pose proof (accumulate_exact_bound l Hl) as B.
    pose proof (pow16_le (S (List.length l)) ltac:(lia)) as P.
    rewrite Nat2Z.inj_succ, Z.pow_succ_r in P by lia.
    change (16 ^ 6) with 16777216 in P.
    pose proof (oper_range x) as Ho.
    set (t := fold_left accumulate_byte_exact l 0) in *.
    unfold accumulate_byte, accumulate_byte_exact, int_shl, int_add.
    destruct (is_prefix_cases x Hx) as [E | E]; rewrite E; cbn [Z.eqb Pos.eqb];
      unfold Z.lnot;
      rewrite (wrap_int_small (_ + _)) by (change (2 ^ 31) with 2147483648; lia);
      rewrite Z.shiftl_mul_pow2 by lia; change (2 ^ 4) with 16;
      rewrite wrap_int_small by (change (2 ^ 31) with 2147483648; lia); lia.
Qed.

(** A whole instruction of at most six prefix bytes and a terminal byte
    accumulates exactly as on unbounded integers. *)
Lemma accumulate_exact_short pre t :
  forallb is_prefix pre = true -> is_prefix t = false ->
  (List.length pre <= 6)%nat ->
  accumulate (pre ++ [t]) = accumulate_exact (pre ++ [t]).
Proof.
  intros Hpre Ht Hlen. unfold accumulate, accumulate_exact.
  rewrite !fold_left_app. cbn [fold_left].
  rewrite accumulate_prefixes_exact by assumption.
  pose proof (accumulate_exact_bound pre Hpre) as B.
  pose proof (pow16_le (List.length pre) Hlen) as P.
  change (16 ^ 6) with 16777216 in P.
  pose proof (oper_range t) as Ho.
  rewrite accumulate_byte_terminal by exact Ht.
  set (t0 := fold_left accumulate_byte_exact pre 0) in *.
  unfold accumulate_byte_exact, is_prefix in *.
  apply orb_false_iff in Ht. destruct Ht as [-> ->].
  unfold int_add. apply wrap_int_small. change (2 ^ 31) with 2147483648. lia.
Qed.

(** ** Folding of negative totals *)

Lemma land_shiftl4_mod16 x y : Z.land (Z.shiftl x 4) (y mod 2 ^ 4) = 0.
Proof.
  apply Z.bits_inj'. intros n Hn. rewrite Z.land_spec, Z.bits_0.
  destruct (Z.ltb_spec n 4).
  - rewrite Z.shiftl_spec_low by lia. reflexivity.
  - rewrite Z.mod_pow2_bits_high by lia. apply andb_false_r.
Qed.

(** The fold keeps the low nibble and complements the rest. *)
Lemma fold_negative_eq t :
  fold_negative t = 16 * (- (t / 16) - 1) + t mod 16.
Proof.
  unfold fold_negative.
  change 15 with (Z.ones 4).
  rewrite <- Z.ldiff_land, Z.ldiff_ones_r, Z.land_ones by lia.
  rewrite <- Z.lxor_lor, <- Z.add_nocarry_lxor by apply land_shiftl4_mod16.
  rewrite Z.shiftl_mul_pow2, Z.shiftr_div_pow2 by lia.
  change (2 ^ 4) with 16.
  replace (Z.lnot t / 16) with (- (t / 16) - 1); [lia |].
  unfold Z.lnot.
  pose proof (Z.div_mod t 16 ltac:(lia)) as D.
  pose proof (Z.mod_pos_bound t 16 ltac:(lia)) as B.
  apply Z.div_unique with (r := 15 - t mod 16); lia.
Qed.

Lemma fold_negative_1F t : fold_negative t = 0x1F <-> t = -17.
Proof.
  rewrite fold_negative_eq.
  pose proof (Z.div_mod t 16 ltac:(lia)) as D.
  pose proof (Z.mod_pos_bound t 16 ltac:(lia)) as B.
  split; intros H.
  - lia.
  - subst t. reflexivity.
Qed.

Lemma getInstructionName_miss total :
  opr_nonneg total = None ->
  opr_negative (fold_negative total) = None ->
  getInstructionName total = None.
Proof.
  intros Hp Hn. unfold getInstructionName.
  destruct (total >=? 0); assumption.
Qed.

Lemma is_jump_not_prefix b :
  is_jump_code (functionCode_of b) = true -> is_prefix b = false.
Proof.
  unfold is_jump_code, is_prefix. cbn [existsb]. intros H.
  rewrite !orb_true_iff in H.
  destruct H as [H | [H | [H | H]]]; try discriminate;
    apply Z.eqb_eq in H; rewrite H; reflexivity.
Qed.

Lemma is_operate_not_prefix b : functionCode_of b = 15 -> is_prefix b = false.
Proof. unfold is_prefix. intros ->. reflexivity. Qed.

(** Every byte of a run of prefix bytes is a prefix byte. *)
Lemma prefix_run_byte mem pc delta n k :
  forallb is_prefix (bytes_at mem pc delta 0 n) = true ->
  (k < n)%nat ->
  is_prefix (byte_at mem pc delta (Z.of_nat k)) = true.
Proof.
  intros H Hk. replace n with (k + S (n - S k))%nat in H by lia.
  rewrite bytes_at_app, bytes_at_S, forallb_app in H.
  cbn [forallb] in H. rewrite Z.add_0_l in H.
  apply andb_true_iff in H. destruct H as [_ H].
  apply andb_true_iff in H. tauto.
Qed.

(** ** The decoder's contract *)

(** C1. A chain of N prefix or negative-prefix bytes followed by one
    terminal byte is decoded, given fuel for N+1 iterations, into a result
    with [m_size = N+1] whose total is the byte-wise accumulation
    [accumulate]: it is the immediate of the load/store/arithmetic family,
    the displacement of jumps and calls, and the index of the operate
    lookup.  With at most six prefix bytes the accumulation is the one on
    unbounded integers, and a single terminal byte gives its low 4 bits. *)
Theorem prefix_chain_decoded :
  forall (mem : Memory) (pc : Address) (delta : Z) (result : MachineInstruction)
         (prefixes : list Byte) (terminal : Byte) (fuel : nat),
    forallb is_prefix prefixes = true ->
    is_prefix terminal = false ->
    stream_at mem pc delta (prefixes ++ [terminal]) ->
    (List.length prefixes < fuel)%nat ->
    let N := Z.of_nat (List.length prefixes) in
    let fc := functionCode_of terminal in
    let total := accumulate (prefixes ++ [terminal]) in
    exists ret r,
      decodeInstruction fuel mem pc delta result = Some (Return ret r) /\
      m_size r = N + 1 /\
      (is_immediate_code fc = true ->
         m_operands r = m_operands result ++ [Const_int total]) /\
      (is_jump_code fc = true ->
         m_operands r =
           m_operands result ++ [Const_addr (addr_wrap (pc + (N + 1) + total))]) /\
      (fc = 15 ->
         match getInstructionName total with
         | Some insnName => ret = true /\ m_mnem r = insnName
         | None => ret = false
         end) /\
      total = int_add (fold_left accumulate_byte prefixes 0) (oper_of terminal) /\
      ((List.length prefixes <= 6)%nat ->
         total = accumulate_exact (prefixes ++ [terminal])) /\
      (prefixes = [] -> total = Z.land (byte_val terminal) 0xF).
Proof.
  intros mem pc delta result prefixes terminal fuel Hpre Hterm Hmem Hfuel N fc total.
  destruct (decode_chain mem pc delta result prefixes terminal fuel
              Hpre Hterm Hmem Hfuel) as (ret & r & Hdec & F).
  fold N fc total in F.
  destruct F as (_ & Hsize & Hjump & Himm & Hopr).
  exists ret, r.
  split; [exact Hdec |]. split; [exact Hsize |].
  split; [intros H; apply Himm in H; tauto |].
  split; [intros H; apply Hjump in H; tauto |].
  split.
  { intros H. apply Hopr in H. destruct H as [_ H].
    destruct (getInstructionName total); tauto. }
  split.
  { unfold total, accumulate. rewrite fold_left_app. cbn [fold_left].
    now apply accumulate_byte_terminal. }
  split.
  { intros Hlen. now apply accumulate_exact_short. }
  intros ->. unfold total, accumulate. cbn [app fold_left].
  rewrite accumulate_byte_terminal by exact Hterm.
  pose proof (oper_range terminal) as Ho.
  unfold int_add. rewrite Z.add_0_l.
  rewrite wrap_int_small by (change (2 ^ 31) with 2147483648; lia).
  reflexivity.
Qed.

(** C2. When the terminal byte is an operate byte and the accumulated
    total is in neither secondary table (the negative-range one being
    searched with the folded total), [decodeInstruction] returns [false]
    with [m_valid] cleared: the failure is a returned value, not the
    assertion failure. *)
Theorem operate_miss_is_failure :
  forall (mem : Memory) (pc : Address) (delta : Z) (result : MachineInstruction)
         (prefixes : list Byte) (terminal : Byte) (fuel : nat),
    forallb is_prefix prefixes = true ->
    functionCode_of terminal = 15 ->
    stream_at mem pc delta (prefixes ++ [terminal]) ->
    (List.length prefixes < fuel)%nat ->
    opr_nonneg (accumulate (prefixes ++ [terminal])) = None ->
    opr_negative (fold_negative (accumulate (prefixes ++ [terminal]))) = None ->
    exists r,
      decodeInstruction fuel mem pc delta result = Some (Return false r) /\
      m_valid r = false /\
      m_size r = Z.of_nat (List.length prefixes) + 1.
Proof.
  intros mem pc delta result prefixes terminal fuel Hpre Hfc Hmem Hfuel Hp Hn.
  destruct (decode_chain mem pc delta result prefixes terminal fuel
              Hpre (is_operate_not_prefix _ Hfc) Hmem Hfuel) as (ret & r & Hdec & F).
  destruct F as (_ & Hsize & _ & _ & Hopr).
  destruct (Hopr Hfc) as [_ H].
  rewrite (getInstructionName_miss _ Hp Hn) in H. destruct H as [-> Hv].
  exists r. auto.
Qed.

(** C4. The operand of a decoded jump, conditional jump or call is the
    address [pc + bytesConsumed + total], in the arithmetic of [Address]
    (modulo [2 ^ addr_bits], hence the exact sum whenever that sum is an
    address).  The three bytes pfix 2, pfix 0, call 3 give an instruction
    of length 3 with total [0x203] and target [pc + 3 + 0x203]. *)
Theorem jump_destination :
  (forall (mem : Memory) (pc : Address) (delta : Z) (result : MachineInstruction)
          (prefixes : list Byte) (terminal : Byte) (fuel : nat),
     forallb is_prefix prefixes = true ->
     is_jump_code (functionCode_of terminal) = true ->
     stream_at mem pc delta (prefixes ++ [terminal]) ->
     (List.length prefixes < fuel)%nat ->
     let bytesConsumed := Z.of_nat (List.length prefixes) + 1 in
     let total := accumulate (prefixes ++ [terminal]) in
     exists r,
       decodeInstruction fuel mem pc delta result = Some (Return true r) /\
       m_addr r = pc /\ m_size r = bytesConsumed /\
       m_id r = functionCode_of terminal /\
       m_operands r =
         m_operands result ++ [Const_addr (addr_wrap (pc + bytesConsumed + total))] /\
       (0 <= pc + bytesConsumed + total < 2 ^ addr_bits ->
        m_operands r =
          m_operands result ++ [Const_addr (pc + bytesConsumed + total)])) /\
  (forall (mem : Memory) (pc : Address) (delta : Z) (result : MachineInstruction),
     stream_at mem pc delta [Init.Byte.x22; Init.Byte.x20; Init.Byte.x93] ->
     accumulate [Init.Byte.x22; Init.Byte.x20; Init.Byte.x93] = 0x203 /\
     exists r,
       decodeInstruction 3 mem pc delta result = Some (Return true r) /\
       m_size r = 3 /\ m_id r = ST20_INS_CALL /\
       m_operands r = m_operands result ++ [Const_addr (addr_wrap (pc + 3 + 0x203))]).
Proof.
  assert (General :
    forall mem pc delta result prefixes terminal fuel,
      forallb is_prefix prefixes = true ->
      is_jump_code (functionCode_of terminal) = true ->
      stream_at mem pc delta (prefixes ++ [terminal]) ->
      (List.length prefixes < fuel)%nat ->
      exists r,
        decodeInstruction fuel mem pc delta result = Some (Return true r) /\
        m_addr r = pc /\ m_size r = Z.of_nat (List.length prefixes) + 1 /\
        m_id r = functionCode_of terminal /\
        m_operands r =
          m_operands result
          ++ [Const_addr (addr_wrap (pc + (Z.of_nat (List.length prefixes) + 1)
                                     + accumulate (prefixes ++ [terminal])))]).
  { intros mem pc delta result prefixes terminal fuel Hpre Hfc Hmem Hfuel.
    destruct (decode_chain mem pc delta result prefixes terminal fuel
                Hpre (is_jump_not_prefix _ Hfc) Hmem Hfuel) as (ret & r & Hdec & F).
    destruct F as (_ & Hsize & Hjump & _ & _).
    destruct (Hjump Hfc) as (-> & Haddr & Hid & Hops).
    exists r. auto. }
  split.
  - intros mem pc delta result prefixes terminal fuel Hpre Hfc Hmem Hfuel
           bytesConsumed total.
    destruct (General mem pc delta result prefixes terminal fuel
                Hpre Hfc Hmem Hfuel) as (r & Hdec & Haddr & Hsize & Hid & Hops).
    exists r. repeat (split; [assumption |]).
    intros Hrange. rewrite Hops. unfold addr_wrap.
    fold bytesConsumed total. now rewrite Z.mod_small.
  - intros mem pc delta result Hmem. split; [reflexivity |].
    destruct (General mem pc delta result [Init.Byte.x22; Init.Byte.x20]
                Init.Byte.x93 3%nat) as (r & Hdec & Haddr & Hsize & Hid & Hops);
      [reflexivity | reflexivity | exact Hmem | cbn; lia |].
    exists r. repeat (split; [assumption |]). exact Hops.
Qed.

(** C5, as the code has it.  [decodeInstruction] is given no stream length
    and checks for no end of stream.  While the bytes it reads are prefix
    or negative-prefix bytes it goes on to the next byte of memory: after a
    stream of N such bytes it has not returned, and whenever it returns it
    has consumed more than N bytes, the last one a terminal byte found in
    memory behind the stream. *)
Theorem prefix_chain_reads_on :
  forall (mem : Memory) (pc : Address) (delta : Z) (result : MachineInstruction)
         (stream : list Byte),
    stream_at mem pc delta stream ->
    forallb is_prefix stream = true ->
    (forall fuel, (fuel <= List.length stream)%nat ->
       decodeInstruction fuel mem pc delta result = None) /\
    (forall fuel o,
       decodeInstruction fuel mem pc delta result = Some o ->
       exists ret r,
         o = Return ret r /\
         Z.of_nat (List.length stream) < m_size r /\
         is_prefix (byte_at mem pc delta (m_size r - 1)) = false).
Proof.
  intros mem pc delta result stream Hmem Hpre.
  unfold stream_at in Hmem. rewrite <- Hmem in Hpre.
  assert (Inv : forall fuel o,
            decodeInstruction fuel mem pc delta result = Some o ->
            exists n ret r,
              o = Return ret r /\ (n < fuel)%nat /\
              (List.length stream <= n)%nat /\
              m_size r = Z.of_nat n + 1 /\
              is_prefix (byte_at mem pc delta (Z.of_nat n)) = false).
  { intros fuel o H. apply decode_result_inv in H.
    destruct H as (n & ret & r & -> & Hn & _ & Hterm & F).
    destruct F as (_ & Hsize & _).
    exists n, ret, r. repeat split; auto.
    destruct (Nat.lt_ge_cases n (List.length stream)) as [Hlt | Hge]; [| exact Hge].
    rewrite (prefix_run_byte mem pc delta _ n Hpre Hlt) in Hterm. discriminate. }
  split.
  - intros fuel Hfuel.
    destruct (decodeInstruction fuel mem pc delta result) as [o |] eqn:E;
      [| reflexivity].
    apply Inv in E. destruct E as (n & _ & _ & _ & Hn & Hlen & _). lia.
  - intros fuel o H. apply Inv in H.
    destruct H as (n & ret & r & -> & _ & Hlen & Hsize & Hterm).
    exists ret, r. split; [reflexivity |]. split; [lia |].
    rewrite Hsize. replace (Z.of_nat n + 1 - 1) with (Z.of_nat n) by lia.
    exact Hterm.
Qed.

(** C6. For a negative total the lookup is the negative-range switch at
    the folded total [(~total & ~0xF) | (total & 0xF)]; a negative total
    that folds to [0x1F] resolves to "iret".  The total that folds to
    [0x1F] is -17, produced by the bytes nfix 1, opr 15, which decode to
    the instruction "iret". *)
Theorem negative_total_lookup :
  (forall total : Z,
     total < 0 ->
     getInstructionName total = opr_negative (fold_negative total)) /\
  (forall total : Z,
     total < 0 -> fold_negative total = 0x1F ->
     getInstructionName total = Some "iret") /\
  (forall total : Z, fold_negative total = 0x1F <-> total = -17) /\
  (forall (mem : Memory) (pc : Address) (delta : Z) (result : MachineInstruction),
     stream_at mem pc delta [Init.Byte.x61; Init.Byte.xff] ->
     accumulate [Init.Byte.x61; Init.Byte.xff] = -17 /\
     exists r,
       decodeInstruction 2 mem pc delta result = Some (Return true r) /\
       m_size r = 2 /\ m_mnem r = "iret" /\ m_variantID r = "IRET").
Proof.
  assert (Neg : forall total, total < 0 ->
            getInstructionName total = opr_negative (fold_negative total)).
  { intros total H. unfold getInstructionName.
    destruct (Z.geb_spec total 0); [lia | reflexivity]. }
  split; [exact Neg |]. split.
  { intros total Hneg Hfold. rewrite Neg by exact Hneg. rewrite Hfold. reflexivity. }
  split; [exact fold_negative_1F |].
  intros mem pc delta result Hmem. split; [reflexivity |].
  destruct (decode_chain mem pc delta result [Init.Byte.x61] Init.Byte.xff 2%nat)
    as (ret & r & Hdec & F);
    [reflexivity | reflexivity | exact Hmem | cbn; lia |].
  destruct F as (_ & Hsize & _ & _ & Hopr).
  destruct (Hopr eq_refl) as [_ H].
  change (getInstructionName (accumulate [Init.Byte.x61; Init.Byte.xff]))
    with (Some "iret") in H.
  destruct H as (-> & _ & _ & Hm & Hv).
  exists r. auto.
Qed.

(** C9. Whatever [decodeInstruction] returns, success or failure, the
    record's [m_size] is at least 1, and the returned flag is the validity
    flag: on success [m_valid] is true. *)
Theorem decoded_length_positive :
  forall (mem : Memory) (pc : Address) (delta : Z) (result : MachineInstruction)
         (fuel : nat) (ret : bool) (r : MachineInstruction),
    decodeInstruction fuel mem pc delta result = Some (Return ret r) ->
    1 <= m_size r /\ m_valid r = ret /\ (ret = true -> m_valid r = true).
Proof.
  intros mem pc delta result fuel ret r H.
  apply decode_result_inv in H.
  destruct H as (n & ret' & r' & E & _ & _ & _ & F).
  injection E as -> ->. destruct F as (Hv & Hsize & _).
  split; [lia |]. split; [auto |]. intros ->. auto.
Qed.

(** C10. The function code [(byte >> 4) & 0xF] of every byte lies in
    0..15, the sixteen values that the [switch] handles, and no call of
    [decodeInstruction] ends in the [default] branch's [assert(false)]. *)
Theorem assertion_unreachable :
  (forall b : Byte, 0 <= functionCode_of b <= 15) /\
  (forall (fuel : nat) (mem : Memory) (pc : Address) (delta total : Z)
          (result : MachineInstruction),
     decode_loop fuel mem pc delta total result <> Some AssertionFailure) /\
  (forall (fuel : nat) (mem : Memory) (pc : Address) (delta : Z)
          (result : MachineInstruction),
     decodeInstruction fuel mem pc delta result <> Some AssertionFailure).
Proof.
  split; [exact functionCode_range |].
  assert (Loop : forall fuel mem pc delta total result,
            decode_loop fuel mem pc delta total result <> Some AssertionFailure).
  { intros fuel mem pc delta total result H.
    apply decode_loop_inv in H. destruct H as (n & _ & _ & Hterm & H).
    pose proof (decode_loop_last mem pc delta
                  (fold_left accumulate_byte
                     (bytes_at mem pc delta (m_size result) n) total)
                  (set_size result (m_size result + Z.of_nat n))) as L.
    cbv zeta in L. cbn [m_size set_size] in L.
    destruct (L Hterm) as (ret & r & E & _).
    rewrite E in H. discriminate H. }
  split; [exact Loop |].
  intros fuel mem pc delta result. apply Loop.
Qed.

(** ** The lifter's contract *)

Lemma remove_dot_filter s :
  remove_dot s = string_filter (fun c => negb (is_separator c)) s.
Proof.
  induction s as [| c s IH]; [reflexivity |].
  cbn [remove_dot string_filter]. unfold is_separator at 1.
  destruct (Ascii.eqb c "."%char); cbn [negb]; now rewrite IH.
Qed.

Lemma upper_ascii_canonical c :
  is_separator c = false ->
  is_separator (upper_ascii c) = false /\ is_lower (upper_ascii c) = false.
Proof.
  destruct c as [[] [] [] [] [] [] [] []]; intros H;
    solve [discriminate H | split; reflexivity].
Qed.

Lemma lookup_key_canonical s :
  string_forallb (fun c => negb (is_separator c) && negb (is_lower c))
                 (lookup_key s) = true.
Proof.
  unfold lookup_key. induction s as [| c s IH]; [reflexivity |].
  cbn [string_filter]. destruct (is_separator c) eqn:E; cbn [negb].
  - exact IH.
  - cbn [toUpper string_forallb]. rewrite IH.
    destruct (upper_ascii_canonical c E) as [-> ->]. reflexivity.
Qed.

Lemma print_operand_render e : print_operand e = render_operand e.
Proof.
  unfold print_operand, render_operand.
  destruct (isIntConst e); [| reflexivity].
  cbv zeta.
  replace ((getInt e >? 100) || (getInt e <? -100)) with (Z.abs (getInt e) >? 100).
  - destruct (Z.abs (getInt e) >? 100); reflexivity.
  - destruct (Z.gtb_spec (Z.abs (getInt e)) 100), (Z.gtb_spec (getInt e) 100),
      (Z.ltb_spec (getInt e) (-100)); cbn [orb]; try reflexivity; lia.
Qed.

(** C7. The name that the lifter looks up in the template dictionary is
    the variant identifier with the separator dots removed and in upper
    case: it holds no dot and no lower-case letter.  The lift succeeds
    exactly when the dictionary has that key; a miss makes
    [liftInstruction] return [false] with no RTL, and this is not a decode
    failure: an instruction that [decodeInstruction] returned with [true]
    has its validity flag set whatever the lift gives. *)
Theorem lookup_key_and_lift_failure :
  forall (this : ST20Decoder) (insn : MachineInstruction) (lifted : DecodeResult),
    let key := lookup_key (m_variantID insn) in
    snd (instantiateRTL this insn) =
      RTLInstDict_instantiateRTL (m_rtlDict this) key (m_addr insn)
                                 (m_operands insn) /\
    string_forallb (fun c => negb (is_separator c) && negb (is_lower c)) key
      = true /\
    fst (snd (liftInstruction this insn lifted)) =
      match dict_lookup (m_rtlDict this) key with
      | Some _ => true
      | None => false
      end /\
    (dict_lookup (m_rtlDict this) key = None ->
       fst (snd (liftInstruction this insn lifted)) = false /\
       rtl (snd (snd (liftInstruction this insn lifted))) = None) /\
    (forall fuel mem pc delta result,
       decodeInstruction fuel mem pc delta result = Some (Return true insn) ->
       m_valid insn = true).
Proof.
  intros this insn lifted key.
  assert (Key : toUpper (remove_dot (m_variantID insn)) = key).
  { unfold key, lookup_key. now rewrite remove_dot_filter. }
  assert (Lift : fst (snd (liftInstruction this insn lifted)) =
                 match dict_lookup (m_rtlDict this) key with
      | Some _ => true
      | None => false
      end /\
                 (dict_lookup (m_rtlDict this) key = None ->
                  rtl (snd (snd (liftInstruction this insn lifted))) = None)).
  { unfold liftInstruction, instantiateRTL. cbv zeta. rewrite Key.
    cbn [fst snd rtl valid]. unfold RTLInstDict_instantiateRTL, valid.
    destruct (dict_lookup (m_rtlDict this) key); cbn [rtl]; split;
      try reflexivity; intros H; discriminate H. }
  destruct Lift as [Lret Lrtl].
  split. { unfold instantiateRTL. cbv zeta. cbn [snd]. now rewrite Key. }
  split. { apply lookup_key_canonical. }
  split. { exact Lret. }
  split. { intros Hmiss. rewrite Lret, Hmiss. auto. }
  intros fuel mem pc delta result H.
  apply decode_result_inv in H.
  destruct H as (n & ret & r & E & _ & _ & _ & F).
  injection E as <- <-. destruct F as (Hv & _). symmetry. exact Hv.
Qed.

(** C8. The RTL and the result of the lift depend on the dictionary and
    the instruction only: two decoders with the same dictionary, debug mode
    on or off, produce the same RTL and the same lift result.  The debug
    mode only adds the trace line: address, variant identifier and the
    operands, an integer constant in hexadecimal when its absolute value
    exceeds 100 and in signed decimal otherwise; without it nothing is
    written. *)
Theorem debug_trace_is_diagnostic_only :
  forall (this this' : ST20Decoder) (insn : MachineInstruction)
         (lifted : DecodeResult),
    m_rtlDict this = m_rtlDict this' ->
    snd (instantiateRTL this insn) = snd (instantiateRTL this' insn) /\
    snd (liftInstruction this insn lifted) = snd (liftInstruction this' insn lifted) /\
    fst (instantiateRTL this insn) =
      (if debug_enabled this then trace_line insn else []) /\
    fst (liftInstruction this insn lifted) = fst (instantiateRTL this insn).
Proof.
  intros this this' insn lifted Hdict.
  unfold liftInstruction, instantiateRTL. cbv zeta. cbn [fst snd].
  rewrite Hdict. repeat split.
  destruct (debug_enabled this); [| reflexivity].
  unfold trace_line. cbn [app]. do 4 f_equal. f_equal.
  apply flat_map_ext. intros e. apply print_operand_render.
Qed.

(** ** The composite identifier of operate instructions *)

(** For a positive total the identifier is the marker bit and the total;
    for a negative total it is the marker bit, the sign bit and the folded
    total.  Both markers are above the 4-bit primary codes. *)
Lemma operate_id_signs total :
  (0 < total -> operate_id total = Z.lor OPR_MASK total) /\
  (total < 0 ->
   operate_id total = Z.lor OPR_MASK (Z.lor (fold_negative total) OPR_SIGN)).
Proof.
  unfold operate_id. split; intros H.
  - destruct (Z.gtb_spec total 0); [reflexivity | lia].
  - destruct (Z.gtb_spec total 0); [lia | reflexivity].
Qed.

Lemma operate_id_marked total : Z.testbit (operate_id total) 16 = true.
Proof.
  unfold operate_id. rewrite Z.lor_spec. reflexivity.
Qed.

(** * Further properties of the decoder and the lifter *)

(** ** The complete outcome *)

Lemma decode_loop_last_result mem pc delta total r :
  let b := byte_at mem pc delta (m_size r) in
  is_prefix b = false ->
  decode_loop 1 mem pc delta total r =
  Some (terminal_result pc (functionCode_of b) (int_add total (oper_of b))
                        (m_size r + 1) r).
Proof.
  intros b H. rewrite decode_loop_unfold. cbv zeta. unfold terminal_result.
  fold b. set (fc := functionCode_of b). set (T := int_add total (oper_of b)).
  unfold is_prefix in H. fold fc in H.
  apply orb_false_iff in H. destruct H as [H2 H6]. apply Z.eqb_neq in H2, H6.
  pose proof (functionCode_cases b) as C. fold fc in C. cbn [In] in C.
  unfold loop_exit.
  repeat (destruct C as [C | C];
    [ rewrite <- C in *; try congruence;
      try (cbn [is_jump_code is_immediate_code existsb Z.eqb Pos.eqb orb
                m_valid m_size set_size m_operands];
           rewrite ?Address_plus_plus; reflexivity) | ]);
    try contradiction.
  cbn [is_jump_code is_immediate_code existsb Z.eqb Pos.eqb orb].
  destruct (getInstructionName T); reflexivity.
Qed.

Lemma terminal_result_set_size pc fc total size r n :
  terminal_result pc fc total size (set_size r n) =
  terminal_result pc fc total size r.
Proof. reflexivity. Qed.

(** [decodeInstruction] written out: the outcome is the one of the first
    terminal byte, with the total folded over the bytes up to it. *)
Lemma decode_result_full mem pc delta result fuel o :
  decodeInstruction fuel mem pc delta result = Some o <->
  exists n,
    (n < fuel)%nat /\
    forallb is_prefix (bytes_at mem pc delta 0 n) = true /\
    is_prefix (byte_at mem pc delta (Z.of_nat n)) = false /\
    o = terminal_result pc (functionCode_of (byte_at mem pc delta (Z.of_nat n)))
                        (accumulate (bytes_at mem pc delta 0 (S n)))
                        (Z.of_nat n + 1) result.
Proof.
  assert (Acc : forall n,
            is_prefix (byte_at mem pc delta (Z.of_nat n)) = false ->
            accumulate (bytes_at mem pc delta 0 (S n)) =
            int_add (fold_left accumulate_byte (bytes_at mem pc delta 0 n) 0)
                    (oper_of (byte_at mem pc delta (Z.of_nat n)))).
  { intros n Hterm. replace (S n) with (n + 1)%nat by lia.
    rewrite bytes_at_app, bytes_at_S. cbn [bytes_at seq map]. rewrite Z.add_0_l.
    unfold accumulate. rewrite fold_left_app. cbn [fold_left].
    now apply accumulate_byte_terminal. }
  unfold decodeInstruction. cbv zeta. split.
  - intros H. apply decode_loop_inv in H. cbn [m_size set_size] in H.
    destruct H as (n & Hn & Hpre & Hterm & H).
    rewrite Z.add_0_l in *. rewrite set_size_twice in H.
    rewrite decode_loop_last_result in H by exact Hterm.
    cbn [m_size set_size] in H. rewrite terminal_result_set_size in H.
    injection H as <-. exists n. rewrite Acc by exact Hterm. auto.
  - intros (n & Hn & Hpre & Hterm & ->).
    rewrite (decode_loop_chain mem pc delta n);
      cbn [m_size set_size]; rewrite ?Z.add_0_l; auto.
    rewrite set_size_twice.
    rewrite decode_loop_last_result by exact Hterm.
    cbn [m_size set_size]. rewrite terminal_result_set_size.
    now rewrite Acc.
Qed.

(** ** What the decoder reads *)

Lemma bytes_at_ext mem mem' pc delta n :
  (forall i, 0 <= i < Z.of_nat n ->
     byte_at mem' pc delta i = byte_at mem pc delta i) ->
  bytes_at mem' pc delta 0 n = bytes_at mem pc delta 0 n.
Proof.
  intros H. unfold bytes_at. apply map_ext_in. intros i Hi.
  apply in_seq in Hi. apply H. lia.
Qed.

(** X1. The result depends on the [m_size] bytes that the instruction
    occupies and on nothing else in memory: a memory that agrees on those
    bytes gives the same result, with any fuel of at least [m_size]
    iterations. *)
Theorem decode_reads_only_its_bytes :
  forall (mem mem' : Memory) (pc : Address) (delta : Z)
         (result : MachineInstruction) (fuel fuel' : nat)
         (ret : bool) (r : MachineInstruction),
    decodeInstruction fuel mem pc delta result = Some (Return ret r) ->
    (forall i, 0 <= i < m_size r ->
       byte_at mem' pc delta i = byte_at mem pc delta i) ->
    (Z.to_nat (m_size r) <= fuel')%nat ->
    decodeInstruction fuel' mem' pc delta result = Some (Return ret r).
Proof.
  intros mem mem' pc delta result fuel fuel' ret r H Hsame Hfuel.
  apply decode_result_full in H. destruct H as (n & Hn & Hpre & Hterm & E).
  assert (Hsize : m_size r = Z.of_nat n + 1).
  { unfold terminal_result in E.
    destruct (is_jump_code _); [injection E as _ ->; reflexivity |].
    destruct (is_immediate_code _); [injection E as _ ->; reflexivity |].
    destruct (getInstructionName _); injection E as _ ->; reflexivity. }
  rewrite Hsize in Hsame, Hfuel.
  assert (Hn' : bytes_at mem' pc delta 0 n = bytes_at mem pc delta 0 n).
  { apply bytes_at_ext. intros i Hi. apply Hsame. lia. }
  assert (HSn : bytes_at mem' pc delta 0 (S n) = bytes_at mem pc delta 0 (S n)).
  { apply bytes_at_ext. intros i Hi. apply Hsame. lia. }
  assert (Hlast : byte_at mem' pc delta (Z.of_nat n)
                  = byte_at mem pc delta (Z.of_nat n)).
  { apply Hsame. lia. }
  apply decode_result_full. exists n.
  rewrite Hn', HSn, Hlast. repeat split; auto. lia.
Qed.

(** ** Success and failure *)

Lemma terminal_code_cases b :
  is_prefix b = false ->
  (is_jump_code (functionCode_of b) = true) \/
  (is_jump_code (functionCode_of b) = false /\
   is_immediate_code (functionCode_of b) = true) \/
  (is_jump_code (functionCode_of b) = false /\
   is_immediate_code (functionCode_of b) = false /\
   functionCode_of b = 15).
Proof.
  unfold is_prefix. intros H.
  apply orb_false_iff in H. destruct H as [H2 H6]. apply Z.eqb_neq in H2, H6.
  pose proof (functionCode_cases b) as C. cbn [In] in C.
  repeat (destruct C as [C | C];
    [ rewrite <- C in *; try congruence; cbn; tauto | ]).
  contradiction.
Qed.

Lemma terminal_result_size pc fc total size r0 ret r :
  Return ret r = terminal_result pc fc total size r0 -> m_size r = size.
Proof.
  unfold terminal_result. intros E.
  destruct (is_jump_code fc); [injection E as _ ->; reflexivity |].
  destruct (is_immediate_code fc); [injection E as _ ->; reflexivity |].
  destruct (getInstructionName total); injection E as _ ->; reflexivity.
Qed.

(** A returned result, with its last byte and its bytes named through
    [m_size]. *)
Lemma decode_result_shape mem pc delta result fuel ret r :
  decodeInstruction fuel mem pc delta result = Some (Return ret r) ->
  is_prefix (byte_at mem pc delta (m_size r - 1)) = false /\
  forallb is_prefix (bytes_at mem pc delta 0 (Z.to_nat (m_size r - 1))) = true /\
  1 <= m_size r /\
  Return ret r =
    terminal_result pc (functionCode_of (byte_at mem pc delta (m_size r - 1)))
      (accumulate (bytes_at mem pc delta 0 (Z.to_nat (m_size r))))
      (m_size r) result.
Proof.
  intros H. apply decode_result_full in H.
  destruct H as (n & Hn & Hpre & Hterm & E).
  pose proof (terminal_result_size _ _ _ _ _ _ _ E) as Hsize.
  rewrite Hsize.
  replace (Z.of_nat n + 1 - 1) with (Z.of_nat n) by lia.
  replace (Z.to_nat (Z.of_nat n + 1)) with (S n) by lia.
  rewrite Nat2Z.id. repeat split; auto. lia.
Qed.

(** X2. Decoding fails in one case only: the terminal byte is an operate
    byte and the accumulated total has no name.  The record then keeps
    every field it came with except [m_size] and [m_valid]: address,
    identifier, mnemonic, operand text, operands, variant identifier and
    class are the stale ones of the caller. *)
Theorem decode_failure_is_operate_miss :
  forall (mem : Memory) (pc : Address) (delta : Z) (result : MachineInstruction)
         (fuel : nat) (ret : bool) (r : MachineInstruction),
    decodeInstruction fuel mem pc delta result = Some (Return ret r) ->
    (ret = false <->
       functionCode_of (byte_at mem pc delta (m_size r - 1)) = 15 /\
       getInstructionName
         (accumulate (bytes_at mem pc delta 0 (Z.to_nat (m_size r)))) = None) /\
    (ret = false ->
       r = mkInsn (m_addr result) (m_id result) (m_size r) (m_mnem result)
                  (m_opstr result) (m_operands result) (m_variantID result)
                  false (m_iclass result)).
Proof.
  intros mem pc delta result fuel ret r H.
  apply decode_result_shape in H. destruct H as (Hterm & _ & _ & E).
  set (fc := functionCode_of (byte_at mem pc delta (m_size r - 1))) in *.
  set (T := accumulate (bytes_at mem pc delta 0 (Z.to_nat (m_size r)))) in *.
  unfold terminal_result in E.
  destruct (terminal_code_cases _ Hterm) as [J | [[J I] | [J [I F]]]];
    fold fc in J; try fold fc in I; try fold fc in F; rewrite J in E.
  - injection E as -> _. split; [| discriminate].
    split; [discriminate |]. intros [F _]. rewrite F in J. discriminate J.
  - rewrite I in E. injection E as -> _. split; [| discriminate].
    split; [discriminate |]. intros [F _]. rewrite F in I. discriminate I.
  - rewrite I in E. destruct (getInstructionName T) as [name |].
    + injection E as -> _. split; [| discriminate].
      split; [discriminate |]. intros [_ N]. discriminate N.
    + injection E as -> ->. cbn [m_size]. split; [tauto | reflexivity].
Qed.

(** X3. On success the record is rewritten: [m_addr] is [pc], the class
    is [NOP], the validity flag is set and the variant identifier is the
    mnemonic in upper case.  The operand list is not reset: the operands
    that the record came with stay in front, followed by one new operand,
    or by none when the instruction is an operate instruction. *)
Theorem decode_success_fields :
  forall (mem : Memory) (pc : Address) (delta : Z) (result : MachineInstruction)
         (fuel : nat) (r : MachineInstruction),
    decodeInstruction fuel mem pc delta result = Some (Return true r) ->
    m_addr r = pc /\ m_valid r = true /\ m_iclass r = NOP /\
    m_variantID r = toUpper (m_mnem r) /\
    exists new,
      m_operands r = m_operands result ++ new /\
      (List.length new <= 1)%nat /\
      (new = [] <->
       functionCode_of (byte_at mem pc delta (m_size r - 1)) = 15).
Proof.
  intros mem pc delta result fuel r H.
  apply decode_result_shape in H. destruct H as (Hterm & _ & _ & E).
  set (fc := functionCode_of (byte_at mem pc delta (m_size r - 1))) in *.
  set (T := accumulate (bytes_at mem pc delta 0 (Z.to_nat (m_size r)))) in *.
  unfold terminal_result in E.
  destruct (terminal_code_cases _ Hterm) as [J | [[J I] | [J [I F]]]];
    fold fc in J; try fold fc in I; try fold fc in F; rewrite J in E.
  - injection E as ->. cbn [m_addr m_valid m_iclass m_variantID m_mnem m_operands].
    repeat (split; [reflexivity |]). eexists. split; [reflexivity |].
    split; [cbn; lia |]. split; [discriminate |].
    intros F. rewrite F in J. discriminate J.
  - rewrite I in E. injection E as ->.
    cbn [m_addr m_valid m_iclass m_variantID m_mnem m_operands].
    repeat (split; [reflexivity |]). eexists. split; [reflexivity |].
    split; [cbn; lia |]. split; [discriminate |].
    intros F. rewrite F in I. discriminate I.
  - rewrite I in E. destruct (getInstructionName T) as [name |];
      [| discriminate E].
    injection E as ->.
    cbn [m_addr m_valid m_iclass m_variantID m_mnem m_operands].
    repeat (split; [reflexivity |]). exists []. rewrite app_nil_r.
    split; [reflexivity |]. split; [cbn; lia |]. tauto.
Qed.

(** X4. The identifier tells the two classes apart.  For a primary
    instruction [m_id] is the function code of the terminal byte, a number
    in 0..14 whose entry in [functionNames] is the mnemonic, and bit 16 is
    clear; for an operate instruction bit 16 ([OPR_MASK]) is set. *)
Theorem identifier_tells_class :
  forall (mem : Memory) (pc : Address) (delta : Z) (result : MachineInstruction)
         (fuel : nat) (r : MachineInstruction),
    decodeInstruction fuel mem pc delta result = Some (Return true r) ->
    let fc := functionCode_of (byte_at mem pc delta (m_size r - 1)) in
    (fc = 15 -> Z.testbit (m_id r) 16 = true) /\
    (fc <> 15 ->
       m_id r = fc /\ 0 <= m_id r <= 14 /\
       m_mnem r = functionName (m_id r) /\
       Z.testbit (m_id r) 16 = false).
Proof.
  intros mem pc delta result fuel r H fc.
  apply decode_result_shape in H. destruct H as (Hterm & _ & _ & E).
  fold fc in E.
  set (T := accumulate (bytes_at mem pc delta 0 (Z.to_nat (m_size r)))) in *.
  assert (Small : forall c, 0 <= c <= 14 -> Z.testbit c 16 = false).
  { intros c Hc. apply Z.bits_above_log2; [lia |].
    destruct (Z.eq_dec c 0) as [-> | Hnz]; [cbn; lia |].
    apply Z.log2_lt_pow2; [lia |]. change (2 ^ 16) with 65536. lia. }
  pose proof (functionCode_range (byte_at mem pc delta (m_size r - 1))) as R.
  fold fc in R.
  unfold terminal_result in E.
  destruct (terminal_code_cases _ Hterm) as [J | [[J I] | [J [I F]]]];
    fold fc in J; try fold fc in I; try fold fc in F; rewrite J in E.
  - injection E as ->. cbn [m_id m_mnem].
    split; [intros F; rewrite F in J; discriminate J |].
    intros NF. repeat split; try lia. apply Small. lia.
  - rewrite I in E. injection E as ->. cbn [m_id m_mnem].
    split; [intros F; rewrite F in I; discriminate I |].
    intros NF. repeat split; try lia. apply Small. lia.
  - rewrite I in E. destruct (getInstructionName T) as [name |];
      [| discriminate E].
    injection E as ->. cbn [m_id m_mnem].
    split; [intros _; apply operate_id_marked | intros NF; contradiction].
Qed.

(** ** The secondary opcode tables *)

Lemma opr_nonneg_domain t name :
  opr_nonneg t = Some name -> 0 <= t <= 0x17C.
Proof.
  intros H. destruct t as [| p | p]; [lia | | discriminate H].
  repeat (destruct p as [p | p |]; try discriminate H; try lia).
Qed.

Lemma opr_negative_domain t name :
  opr_negative t = Some name -> 0 <= t <= 0x8D.
Proof.
  intros H. destruct t as [| p | p]; [lia | | discriminate H].
  repeat (destruct p as [p | p |]; try discriminate H; try lia).
Qed.

Lemma In_Z_range lo n t :
  lo <= t < lo + Z.of_nat n -> In t (Z_range lo n).
Proof.
  intros H. unfold Z_range. apply in_map_iff.
  exists (Z.to_nat (t - lo)). split; [lia |]. apply in_seq. lia.
Qed.

(** Only the totals from -144 to 380 can have a name. *)
Lemma getInstructionName_range :
  forall (total : Z) (name : string),
    getInstructionName total = Some name -> -144 <= total <= 0x17C.
Proof.
  intros total name. unfold getInstructionName.
  destruct (Z.geb_spec total 0) as [Hpos | Hneg]; intros H.
  - apply opr_nonneg_domain in H. lia.
  - apply opr_negative_domain in H. rewrite fold_negative_eq in H.
    pose proof (Z.div_mod total 16 ltac:(lia)) as D.
    pose proof (Z.mod_pos_bound total 16 ltac:(lia)) as B.
    lia.
Qed.

(** X5. Only the totals from -144 to 380 (0x17C) can have a name: for a
    total outside that range [getInstructionName] returns the null pointer,
    and every total with a name lies inside it. *)
Theorem getInstructionName_domain :
  forall total : Z,
    (total < -144 \/ 0x17C < total -> getInstructionName total = None) /\
    (forall name, getInstructionName total = Some name -> -144 <= total <= 0x17C).
Proof.
  intros total. split.
  - intros H. destruct (getInstructionName total) as [name |] eqn:E;
      [| reflexivity].
    apply getInstructionName_range in E. lia.
  - intros name. apply getInstructionName_range.
Qed.

(** A property checked on every total from -144 to 380 holds of every
    total that has a name. *)
Lemma named_total_check (P : Z -> bool) :
  forallb P (Z_range (-144) 525) = true ->
  forall total name, getInstructionName total = Some name -> P total = true.
Proof.
  intros H total name Hname. apply getInstructionName_range in Hname.
  rewrite forallb_forall in H. apply H. apply In_Z_range. lia.
Qed.

Lemma same_name_eq a b : same_name a b = true <-> a = b.
Proof.
  destruct a as [x |], b as [y |]; cbn; split; intros H;
    try discriminate; try reflexivity.
  - apply String.eqb_eq in H. now subst.
  - injection H as ->. apply String.eqb_refl.
Qed.

(** X6. A mnemonic names one operate instruction: two totals with the
    same name are the same total, except that 0xF6 and 0xF7 are both
    "null".  No operate mnemonic is one of the sixteen primary mnemonics of
    [functionNames]. *)
Theorem operate_names_distinct :
  forall (t1 t2 : Z) (name : string),
    getInstructionName t1 = Some name ->
    (getInstructionName t2 = Some name ->
       t1 = t2 \/ ((t1 = 0xF6 \/ t1 = 0xF7) /\ (t2 = 0xF6 \/ t2 = 0xF7))) /\
    ~ In name functionNames.
Proof.
  intros t1 t2 name H1. split.
  - intros H2.
    pose (ok := fun a b =>
            match getInstructionName a with
            | Some _ =>
                negb (same_name (getInstructionName a) (getInstructionName b))
                || (a =? b)
                || (((a =? 0xF6) || (a =? 0xF7)) && ((b =? 0xF6) || (b =? 0xF7)))
            | None => true
            end).
    assert (C : forallb (fun a => forallb (ok a) (Z_range (-144) 525))
                        (Z_range (-144) 525) = true) by (vm_compute; reflexivity).
    pose proof (named_total_check _ C t1 name H1) as C1. cbv beta in C1.
    pose proof (named_total_check _ C1 t2 name H2) as C2. unfold ok in C2.
    rewrite !H1, H2 in C2.
    assert (S : same_name (Some name) (Some name) = true)
      by now apply same_name_eq.
    rewrite S in C2. cbn [negb orb] in C2.
    apply orb_true_iff in C2. destruct C2 as [C2 | C2].
    + left. now apply Z.eqb_eq.
    + right. apply andb_true_iff in C2. destruct C2 as [A B].
      apply orb_true_iff in A, B.
      destruct A as [A | A], B as [B | B]; apply Z.eqb_eq in A, B; auto.
  - pose (ok := fun a =>
            match getInstructionName a with
            | Some n => negb (existsb (String.eqb n) functionNames)
            | None => true
            end).
    assert (C : forallb ok (Z_range (-144) 525) = true) by (vm_compute; reflexivity).
    pose proof (named_total_check _ C t1 name H1) as C1. unfold ok in C1.
    rewrite H1 in C1. apply negb_true_iff in C1.
    intros Hin. assert (E : existsb (String.eqb name) functionNames = true).
    { apply existsb_exists. exists name. split; [exact Hin | apply String.eqb_refl]. }
    rewrite E in C1. discriminate C1.
Qed.

(** X7. The composite identifier names one operate instruction: two
    totals that have a name and the same identifier are the same total.
    For a named total above 0 the identifier is [0x10000 + total], for one
    below 0 it is [0x30000] plus the folded total. *)
Theorem operate_id_distinct :
  forall (t1 : Z) (n1 : string),
    getInstructionName t1 = Some n1 ->
    (0 < t1 -> operate_id t1 = 0x10000 + t1) /\
    (t1 < 0 -> operate_id t1 = 0x30000 + fold_negative t1) /\
    (forall (t2 : Z) (n2 : string),
       getInstructionName t2 = Some n2 ->
       operate_id t1 = operate_id t2 -> t1 = t2).
Proof.
  intros t1 n1 H1.
  pose (form := fun a =>
          match getInstructionName a with
          | Some _ =>
              (if 0 <? a then operate_id a =? 0x10000 + a else true)
              && (if a <? 0 then operate_id a =? 0x30000 + fold_negative a
                  else true)
          | None => true
          end).
  assert (F : forallb form (Z_range (-144) 525) = true) by (vm_compute; reflexivity).
  pose proof (named_total_check _ F t1 n1 H1) as F1. unfold form in F1.
  rewrite H1 in F1. apply andb_true_iff in F1. destruct F1 as [Fp Fn].
  split.
  { intros Hp. destruct (Z.ltb_spec 0 t1); [now apply Z.eqb_eq | lia]. }
  split.
  { intros Hn. destruct (Z.ltb_spec t1 0); [now apply Z.eqb_eq | lia]. }
  intros t2 n2 H2 E.
  pose (ok := fun a b =>
          match getInstructionName a, getInstructionName b with
          | Some _, Some _ => negb (operate_id a =? operate_id b) || (a =? b)
          | _, _ => true
          end).
  assert (C : forallb (fun a => forallb (ok a) (Z_range (-144) 525))
                      (Z_range (-144) 525) = true) by (vm_compute; reflexivity).
  pose proof (named_total_check _ C t1 n1 H1) as C1. cbv beta in C1.
  pose proof (named_total_check _ C1 t2 n2 H2) as C2. unfold ok in C2.
  rewrite H1, H2, E, Z.eqb_refl in C2. cbn [negb orb] in C2.
  now apply Z.eqb_eq.
Qed.

(** ** The lookup key *)







Lemma primary_names_canonical b :
  toUpper (remove_dot (toUpper (functionName (functionCode_of b)))) =
  toUpper (functionName (functionCode_of b)).
Proof.
  pose proof (functionCode_cases b) as C. cbn [In] in C.
  repeat (destruct C as [C | C]; [rewrite <- C; reflexivity |]).
  contradiction.
Qed.

Lemma operate_names_canonical total name :
  getInstructionName total = Some name ->
  toUpper (remove_dot (toUpper name)) = toUpper name.
Proof.
  intros H.
  pose (ok := fun a =>
          match getInstructionName a with
          | Some n => String.eqb (toUpper (remove_dot (toUpper n))) (toUpper n)
          | None => true
          end).
  assert (C : forallb ok (Z_range (-144) 525) = true) by (vm_compute; reflexivity).
  pose proof (named_total_check _ C total name H) as C1. unfold ok in C1.
  rewrite H in C1. now apply String.eqb_eq.
Qed.

(** X9. Decoder and lifter agree on the name.  The variant identifier of
    every decoded instruction is already sanitized, so the lifter looks the
    instruction up under [m_variantID] itself, with the instruction's
    address [pc] and its operand list. *)
Theorem decoded_variant_is_lookup_key :
  forall (mem : Memory) (pc : Address) (delta : Z) (result : MachineInstruction)
         (fuel : nat) (r : MachineInstruction) (this : ST20Decoder),
    decodeInstruction fuel mem pc delta result = Some (Return true r) ->
    toUpper (remove_dot (m_variantID r)) = m_variantID r /\
    snd (instantiateRTL this r) =
      RTLInstDict_instantiateRTL (m_rtlDict this) (m_variantID r) pc
                                 (m_operands r).
Proof.
  intros mem pc delta result fuel r this H.
  apply decode_result_shape in H. destruct H as (Hterm & _ & _ & E).
  assert (K : toUpper (remove_dot (m_variantID r)) = m_variantID r /\
              m_addr r = pc).
  { unfold terminal_result in E.
    destruct (is_jump_code _);
      [injection E as ->; split; [apply primary_names_canonical | reflexivity] |].
    destruct (is_immediate_code _);
      [injection E as ->; split; [apply primary_names_canonical | reflexivity] |].
    destruct (getInstructionName _) as [name |] eqn:N; [| discriminate E].
    injection E as ->. split; [| reflexivity].
    cbn [m_variantID]. exact (operate_names_canonical _ _ N). }
  destruct K as [K A]. split; [exact K |].
  unfold instantiateRTL. cbv zeta. cbn [snd]. now rewrite K, A.
Qed.

(** ** The total as a number *)

Lemma is_pfix_prefix l : forallb is_pfix l = true -> forallb is_prefix l = true.
Proof.
  rewrite !forallb_forall. intros H b Hb. specialize (H b Hb).
  unfold is_pfix in H. unfold is_prefix. now rewrite H.
Qed.

Lemma hex_value_snoc digits d : hex_value (digits ++ [d]) = hex_value digits * 16 + d.
Proof. unfold hex_value. now rewrite fold_left_app. Qed.

Lemma hex_value_bound digits :
  Forall (fun d => 0 <= d <= 15) digits ->
  0 <= hex_value digits < 16 ^ Z.of_nat (List.length digits).
Proof.
  induction digits as [| d digits IH] using rev_ind; intros H.
  - cbn. lia.
  - apply Forall_app in H. destruct H as [Hl Hd]. inversion_clear Hd as [| ? ? Hd' _].
    specialize (IH Hl). rewrite hex_value_snoc, length_app. cbn [List.length].
    replace (Z.of_nat (List.length digits + 1))
      with (Z.succ (Z.of_nat (List.length digits))) by lia.
    rewrite Z.pow_succ_r by lia. lia.
Qed.

Lemma accumulate_exact_pfix pre :
  forallb is_pfix pre = true ->
  fold_left accumulate_byte_exact pre 0 = 16 * hex_value (map oper_of pre).
Proof.
  induction pre as [| x pre IH] using rev_ind; intros H.
  - reflexivity.
  - rewrite forallb_app in H. apply andb_true_iff in H. destruct H as [Hl Hx].
    cbn [forallb] in Hx. rewrite andb_true_r in Hx.
    rewrite fold_left_app, map_app. cbn [fold_left map].
    rewrite hex_value_snoc, IH by exact Hl.
    unfold accumulate_byte_exact. unfold is_pfix in Hx. rewrite Hx. lia.
Qed.

(** At most six [pfix] bytes: the total is the number with the operand
    fields of the bytes as its hexadecimal digits. *)
Lemma accumulate_pfix_hex :
  forall (prefixes : list Byte) (terminal : Byte),
    forallb is_pfix prefixes = true ->
    is_prefix terminal = false ->
    (List.length prefixes <= 6)%nat ->
    accumulate (prefixes ++ [terminal])
      = hex_value (map oper_of (prefixes ++ [terminal])) /\
    0 <= accumulate (prefixes ++ [terminal])
      < 16 ^ (Z.of_nat (List.length prefixes) + 1).
Proof.
  intros prefixes terminal Hpre Hterm Hlen.
  assert (E : accumulate (prefixes ++ [terminal])
              = hex_value (map oper_of (prefixes ++ [terminal]))).
  { rewrite accumulate_exact_short by (auto using is_pfix_prefix).
    unfold accumulate_exact. rewrite fold_left_app, map_app. cbn [fold_left map].
    rewrite hex_value_snoc, accumulate_exact_pfix by exact Hpre.
    unfold accumulate_byte_exact, is_prefix in *.
    apply orb_false_iff in Hterm. destruct Hterm as [-> ->]. lia. }
  split; [exact E |]. rewrite E.
  pose proof (hex_value_bound (map oper_of (prefixes ++ [terminal]))) as B.
  rewrite length_map, length_app in B. cbn [List.length] in B.
  replace (Z.of_nat (List.length prefixes + 1))
    with (Z.of_nat (List.length prefixes) + 1) in B by lia.
  apply B. apply Forall_forall. intros d Hd. apply in_map_iff in Hd.
  destruct Hd as (b & <- & _). apply oper_range.
Qed.

Lemma accumulate_exact_stays_negative rest :
  forall a, a <= -16 -> forallb is_prefix rest = true ->
  fold_left accumulate_byte_exact rest a <= -16.
Proof.
  induction rest as [| x rest IH]; intros a Ha H; [exact Ha |].
  cbn [forallb] in H. apply andb_true_iff in H. destruct H as [Hx Hrest].
  cbn [fold_left]. apply IH; [| exact Hrest].
  pose proof (oper_range x) as Ho. unfold accumulate_byte_exact.
  destruct (is_prefix_cases x Hx) as [E | E]; rewrite E; cbn [Z.eqb Pos.eqb]; lia.
Qed.

(** At most six prefix bytes, the first an [nfix] byte: the total is
    negative. *)
Lemma accumulate_nfix_negative :
  forall (first : Byte) (rest : list Byte) (terminal : Byte),
    is_nfix first = true ->
    forallb is_prefix rest = true ->
    is_prefix terminal = false ->
    (List.length rest <= 5)%nat ->
    accumulate (first :: rest ++ [terminal]) < 0 /\
    (rest = [] ->
     accumulate (first :: rest ++ [terminal])
       = 16 * (- oper_of first - 1) + oper_of terminal /\
     -256 <= accumulate (first :: rest ++ [terminal])).
Proof.
  intros first rest terminal Hfirst Hrest Hterm Hlen.
  assert (Hp : is_prefix first = true).
  { unfold is_prefix. unfold is_nfix in Hfirst. rewrite Hfirst. apply orb_true_r. }
  assert (E : accumulate (first :: rest ++ [terminal])
              = fold_left accumulate_byte_exact rest
                  (16 * (- oper_of first - 1)) + oper_of terminal).
  { change (first :: rest ++ [terminal]) with ((first :: rest) ++ [terminal]).
    rewrite accumulate_exact_short;
      [| cbn [forallb]; now rewrite Hp | exact Hterm | cbn [List.length]; lia].
    unfold accumulate_exact. rewrite fold_left_app. cbn [fold_left].
    unfold is_nfix in Hfirst. apply Z.eqb_eq in Hfirst.
    unfold accumulate_byte_exact at 1 3. rewrite Hfirst. cbn [Z.eqb Pos.eqb].
    unfold is_prefix in Hterm. apply orb_false_iff in Hterm.
    destruct Hterm as [-> ->]. f_equal. f_equal. lia. }
  pose proof (oper_range first) as Hf. pose proof (oper_range terminal) as Ht.
  split.
  - rewrite E.
    pose proof (accumulate_exact_stays_negative rest (16 * (- oper_of first - 1))
                  ltac:(lia) Hrest). lia.
  - intros ->. cbn [app] in *. rewrite E. cbn [fold_left]. lia.
Qed.

(** ** Long chains and the range of [int] *)

Lemma wrap_int_mod z : wrap_int z mod 2 ^ 32 = z mod 2 ^ 32.
Proof.
  unfold wrap_int.
  pose proof (Z.div_mod (z + 2 ^ 31) (2 ^ 32) ltac:(lia)) as D.
  replace ((z + 2 ^ 31) mod 2 ^ 32 - 2 ^ 31)
    with (z + (- ((z + 2 ^ 31) / 2 ^ 32)) * 2 ^ 32) by lia.
  apply Z_mod_plus_full.
Qed.

Lemma wrap_int_congr a b : a mod 2 ^ 32 = b mod 2 ^ 32 -> wrap_int a = wrap_int b.
Proof.
  intros H. unfold wrap_int. f_equal.
  rewrite (Zplus_mod a), (Zplus_mod b), H. reflexivity.
Qed.

Lemma wrap_int_idem z : wrap_int (wrap_int z) = wrap_int z.
Proof. apply wrap_int_congr, wrap_int_mod. Qed.

Lemma accumulate_byte_wrap a a' b :
  a' mod 2 ^ 32 = a mod 2 ^ 32 ->
  accumulate_byte a' b = wrap_int (accumulate_byte_exact a b).
Proof.
  intros H. unfold accumulate_byte, accumulate_byte_exact, int_shl, int_add.
  assert (Add : forall c, wrap_int (a' + c) mod 2 ^ 32 = (a + c) mod 2 ^ 32).
  { intros c. rewrite wrap_int_mod, (Zplus_mod a'), H, <- Zplus_mod. reflexivity. }
  assert (Shl : forall c, wrap_int (Z.shiftl (wrap_int (a' + c)) 4)
                          = wrap_int ((a + c) * 16)).
  { intros c. apply wrap_int_congr. rewrite Z.shiftl_mul_pow2 by lia.
    change (2 ^ 4) with 16.
    rewrite (Zmult_mod (wrap_int (a' + c))), Add, <- Zmult_mod. reflexivity. }
  destruct (functionCode_of b =? 2); [apply Shl |].
  destruct (functionCode_of b =? 6).
  - unfold Z.lnot. replace (Z.pred (- oper_of b)) with (- oper_of b - 1) by lia.
    apply Shl.
  - apply wrap_int_congr. rewrite <- (wrap_int_mod (a' + _)). apply Add.
Qed.

Lemma fold_accumulate_wrap l :
  forall a a', a' mod 2 ^ 32 = a mod 2 ^ 32 ->
  (fold_left accumulate_byte l a') mod 2 ^ 32
  = (fold_left accumulate_byte_exact l a) mod 2 ^ 32.
Proof.
  induction l as [| x l IH]; intros a a' H; [exact H |].
  cbn [fold_left]. apply IH.
  rewrite (accumulate_byte_wrap a a' x H). apply wrap_int_mod.
Qed.

(** The 32-bit total is the unbounded total brought into the range of
    [int] once, at the end. *)
Lemma accumulate_wrap_int :
  forall bytes : list Byte,
    accumulate bytes = wrap_int (accumulate_exact bytes) /\
    - 2 ^ 31 <= accumulate bytes < 2 ^ 31.
Proof.
  intros bytes.
  assert (E : accumulate bytes = wrap_int (accumulate_exact bytes)).
  { unfold accumulate, accumulate_exact.
    destruct bytes as [| x l] using rev_ind; [reflexivity |].
    rewrite !fold_left_app. cbn [fold_left].
    apply accumulate_byte_wrap. now apply fold_accumulate_wrap. }
  split; [exact E |]. rewrite E. apply wrap_int_range.
Qed.

Lemma accumulate_exact_shift l :
  forall a c, forallb is_prefix l = true ->
  fold_left accumulate_byte_exact l (a + c)
  = fold_left accumulate_byte_exact l a + c * 16 ^ Z.of_nat (List.length l).
Proof.
  induction l as [| x l IH]; intros a c H.
  - cbn. lia.
  - cbn [forallb] in H. apply andb_true_iff in H. destruct H as [Hx Hl].
    cbn [fold_left List.length]. rewrite Nat2Z.inj_succ, Z.pow_succ_r by lia.
    replace (accumulate_byte_exact (a + c) x)
      with (accumulate_byte_exact a x + c * 16).
    + rewrite IH by exact Hl. lia.
    + unfold accumulate_byte_exact.
      destruct (is_prefix_cases x Hx) as [E | E]; rewrite E; cbn [Z.eqb Pos.eqb]; lia.
Qed.

Lemma accumulate_exact_multiple l :
  forallb is_prefix l = true ->
  exists k, fold_left accumulate_byte_exact l 0 = 16 * k.
Proof.
  destruct l as [| x l] using rev_ind; intros H.
  - exists 0. reflexivity.
  - rewrite forallb_app in H. apply andb_true_iff in H. destruct H as [_ Hx].
    cbn [forallb] in Hx. rewrite andb_true_r in Hx.
    rewrite fold_left_app. cbn [fold_left]. unfold accumulate_byte_exact.
    destruct (is_prefix_cases x Hx) as [E | E]; rewrite E; cbn [Z.eqb Pos.eqb];
      eexists; rewrite Z.mul_comm; reflexivity.
Qed.

(** In a chain of more than seven prefix bytes the bytes before the last
    seven are shifted out of the accumulator. *)
Lemma accumulate_last_eight :
  forall (early late : list Byte) (terminal : Byte),
    forallb is_prefix early = true ->
    forallb is_prefix late = true ->
    is_prefix terminal = false ->
    List.length late = 7%nat ->
    accumulate (early ++ late ++ [terminal]) = accumulate (late ++ [terminal]).
Proof.
  intros early late terminal Hearly Hlate Hterm Hlen.
  rewrite (proj1 (accumulate_wrap_int (early ++ late ++ [terminal]))).
  rewrite (proj1 (accumulate_wrap_int (late ++ [terminal]))).
  apply wrap_int_congr. unfold accumulate_exact.
  rewrite (fold_left_app _ early), !(fold_left_app _ late). cbn [fold_left].
  destruct (accumulate_exact_multiple early Hearly) as [k Hk].
  rewrite Hk. replace (16 * k) with (0 + 16 * k) by lia.
  rewrite accumulate_exact_shift by exact Hlate. rewrite Hlen.
  set (L := fold_left accumulate_byte_exact late 0).
  unfold accumulate_byte_exact, is_prefix in *.
  apply orb_false_iff in Hterm. destruct Hterm as [-> ->].
  replace (L + 16 * k * 16 ^ Z.of_nat 7 + oper_of terminal)
    with (L + oper_of terminal + k * 2 ^ 32)
    by (change (16 ^ Z.of_nat 7) with 268435456;
        change (2 ^ 32) with 4294967296; lia).
  apply Z_mod_plus_full.
Qed.

(** ** The immediate operand *)

Lemma is_immediate_not_prefix b :
  is_immediate_code (functionCode_of b) = true -> is_prefix b = false.
Proof.
  unfold is_immediate_code, is_prefix. cbn [existsb]. intros H.
  rewrite !orb_true_iff in H.
  repeat (destruct H as [H | H];
          [apply Z.eqb_eq in H; rewrite H; reflexivity |]).
  discriminate H.
Qed.

(** A chain that ends in a terminal byte of the load/store/arithmetic
    family decodes, and its one operand is the total. *)
Lemma decode_immediate mem pc delta result prefixes terminal fuel :
  forallb is_prefix prefixes = true ->
  is_immediate_code (functionCode_of terminal) = true ->
  stream_at mem pc delta (prefixes ++ [terminal]) ->
  (List.length prefixes < fuel)%nat ->
  exists r,
    decodeInstruction fuel mem pc delta result = Some (Return true r) /\
    m_size r = Z.of_nat (List.length prefixes) + 1 /\
    m_operands r =
      m_operands result ++ [Const_int (accumulate (prefixes ++ [terminal]))].
Proof.
  intros Hpre Himm Hmem Hfuel.
  destruct (decode_chain mem pc delta result prefixes terminal fuel
              Hpre (is_immediate_not_prefix _ Himm) Hmem Hfuel)
    as (ret & r & D & F).
  destruct F as (_ & S & _ & I & _). destruct (I Himm) as (-> & _ & _ & _ & _ & O).
  exists r. auto.
Qed.

(** X10. A chain of at most six [pfix] bytes spells the operand in
    hexadecimal, one digit per byte and the most significant first: the
    decoded immediate is the number whose digits are the operand fields of
    the bytes, a value from 0 to [16 ^ (N+1) - 1]. *)
Theorem pfix_chain_spells_hex :
  forall (mem : Memory) (pc : Address) (delta : Z) (result : MachineInstruction)
         (prefixes : list Byte) (terminal : Byte) (fuel : nat),
    forallb is_pfix prefixes = true ->
    is_immediate_code (functionCode_of terminal) = true ->
    stream_at mem pc delta (prefixes ++ [terminal]) ->
    (List.length prefixes < fuel)%nat ->
    (List.length prefixes <= 6)%nat ->
    exists r,
      decodeInstruction fuel mem pc delta result = Some (Return true r) /\
      m_operands r =
        m_operands result
        ++ [Const_int (hex_value (map oper_of (prefixes ++ [terminal])))] /\
      0 <= hex_value (map oper_of (prefixes ++ [terminal]))
        < 16 ^ (Z.of_nat (List.length prefixes) + 1).
Proof.
  intros mem pc delta result prefixes terminal fuel Hpre Himm Hmem Hfuel Hlen.
  destruct (decode_immediate mem pc delta result prefixes terminal fuel
              (is_pfix_prefix _ Hpre) Himm Hmem Hfuel) as (r & D & _ & O).
  destruct (accumulate_pfix_hex prefixes terminal Hpre
              (is_immediate_not_prefix _ Himm) Hlen) as [E B].
  rewrite E in O, B. exists r. auto.
Qed.

(** X11. A chain of at most six prefix bytes that starts with an [nfix]
    byte decodes to a negative immediate, whatever prefix bytes follow.  An
    [nfix] byte directly followed by the terminal byte gives
    [16 * (-operand - 1) + operand'], a value from -256 to -1. *)
Theorem nfix_chain_is_negative :
  forall (mem : Memory) (pc : Address) (delta : Z) (result : MachineInstruction)
         (first : Byte) (rest : list Byte) (terminal : Byte) (fuel : nat),
    is_nfix first = true ->
    forallb is_prefix rest = true ->
    is_immediate_code (functionCode_of terminal) = true ->
    stream_at mem pc delta ((first :: rest) ++ [terminal]) ->
    (List.length (first :: rest) < fuel)%nat ->
    (List.length rest <= 5)%nat ->
    exists r total,
      decodeInstruction fuel mem pc delta result = Some (Return true r) /\
      m_operands r = m_operands result ++ [Const_int total] /\
      total < 0 /\
      (rest = [] ->
       total = 16 * (- oper_of first - 1) + oper_of terminal /\ -256 <= total).
Proof.
  intros mem pc delta result first rest terminal fuel
         Hfirst Hrest Himm Hmem Hfuel Hlen.
  assert (Hp : forallb is_prefix (first :: rest) = true).
  { cbn [forallb]. rewrite Hrest. unfold is_prefix. unfold is_nfix in Hfirst.
    rewrite Hfirst. rewrite orb_true_r. reflexivity. }
  destruct (decode_immediate mem pc delta result (first :: rest) terminal fuel
              Hp Himm Hmem Hfuel) as (r & D & _ & O).
  destruct (accumulate_nfix_negative first rest terminal Hfirst Hrest
              (is_immediate_not_prefix _ Himm) Hlen) as [N S].
  exists r, (accumulate ((first :: rest) ++ [terminal])). auto.
Qed.

(** X12. For a chain of any length the decoded immediate is the total on
    unbounded integers brought into the range of [int] once, at the end:
    it lies in the range of [int] and agrees with the unbounded total
    modulo [2 ^ 32]. *)
Theorem immediate_wraps_once :
  forall (mem : Memory) (pc : Address) (delta : Z) (result : MachineInstruction)
         (prefixes : list Byte) (terminal : Byte) (fuel : nat),
    forallb is_prefix prefixes = true ->
    is_immediate_code (functionCode_of terminal) = true ->
    stream_at mem pc delta (prefixes ++ [terminal]) ->
    (List.length prefixes < fuel)%nat ->
    exists r total,
      decodeInstruction fuel mem pc delta result = Some (Return true r) /\
      m_operands r = m_operands result ++ [Const_int total] /\
      - 2 ^ 31 <= total < 2 ^ 31 /\
      total mod 2 ^ 32 = accumulate_exact (prefixes ++ [terminal]) mod 2 ^ 32.
Proof.
  intros mem pc delta result prefixes terminal fuel Hpre Himm Hmem Hfuel.
  destruct (decode_immediate mem pc delta result prefixes terminal fuel
              Hpre Himm Hmem Hfuel) as (r & D & _ & O).
  exists r, (accumulate (prefixes ++ [terminal])).
  split; [exact D |]. split; [exact O |].
  destruct (accumulate_wrap_int (prefixes ++ [terminal])) as [E R].
  split; [exact R |]. rewrite E. apply wrap_int_mod.
Qed.

(** X13. Only the last eight bytes of an instruction reach the operand:
    in a chain of more than seven prefix bytes the bytes before the last
    seven are shifted out of the 32-bit accumulator.  The long instruction
    decodes to the same immediate as its last seven prefix bytes and
    terminal byte alone, with a larger [m_size]. *)
Theorem long_chain_keeps_last_eight :
  forall (mem mem' : Memory) (pc pc' : Address) (delta delta' : Z)
         (result : MachineInstruction)
         (early late : list Byte) (terminal : Byte) (fuel : nat),
    forallb is_prefix early = true ->
    forallb is_prefix late = true ->
    is_immediate_code (functionCode_of terminal) = true ->
    List.length late = 7%nat ->
    stream_at mem pc delta ((early ++ late) ++ [terminal]) ->
    stream_at mem' pc' delta' (late ++ [terminal]) ->
    (List.length (early ++ late) < fuel)%nat ->
    exists r r',
      decodeInstruction fuel mem pc delta result = Some (Return true r) /\
      decodeInstruction fuel mem' pc' delta' result = Some (Return true r') /\
      m_operands r = m_operands r' /\
      m_size r = m_size r' + Z.of_nat (List.length early).
Proof.
  intros mem mem' pc pc' delta delta' result early late terminal fuel
         Hearly Hlate Himm Hlen Hmem Hmem' Hfuel.
  assert (Hp : forallb is_prefix (early ++ late) = true).
  { rewrite forallb_app, Hearly, Hlate. reflexivity. }
  destruct (decode_immediate mem pc delta result (early ++ late) terminal fuel
              Hp Himm Hmem Hfuel) as (r & D & S & O).
  rewrite length_app in Hfuel.
  destruct (decode_immediate mem' pc' delta' result late terminal fuel
              Hlate Himm Hmem' ltac:(lia)) as (r' & D' & S' & O').
  exists r, r'. split; [exact D |]. split; [exact D' |]. split.
  - rewrite O, O', <- app_assoc.
    now rewrite (accumulate_last_eight early late terminal Hearly Hlate
                   (is_immediate_not_prefix _ Himm) Hlen).
  - rewrite S, S', length_app. lia.
Qed.

(** ** One instruction after the other *)

Lemma byte_at_advance mem pc delta n i :
  byte_at mem (Address_plus pc n) delta i = byte_at mem pc delta (n + i).
Proof.
  unfold byte_at, Address_plus, addr_wrap. f_equal.
  rewrite <- (Z.add_assoc _ delta i), Zplus_mod_idemp_l. f_equal. lia.
Qed.

Lemma bytes_at_advance mem pc delta n m :
  bytes_at mem (Address_plus pc n) delta 0 m = bytes_at mem pc delta n m.
Proof.
  unfold bytes_at. apply map_ext. intros i.
  rewrite byte_at_advance. f_equal.
Qed.

Lemma app_same_length (A : Type) (l1 l1' l2 l2' : list A) :
  l1 ++ l2 = l1' ++ l2' -> List.length l1 = List.length l1' ->
  l1 = l1' /\ l2 = l2'.
Proof.
  revert l1'. induction l1 as [| x l1 IH]; intros [| y l1'] H Hlen;
    try discriminate Hlen.
  - auto.
  - cbn [app] in H. injection H as -> H. cbn [List.length] in Hlen.
    destruct (IH l1' H ltac:(lia)) as [-> ->]. auto.
Qed.

Lemma stream_at_app mem pc delta bs1 bs2 :
  stream_at mem pc delta (bs1 ++ bs2) ->
  stream_at mem pc delta bs1 /\
  stream_at mem (Address_plus pc (Z.of_nat (List.length bs1))) delta bs2.
Proof.
  unfold stream_at. rewrite length_app, bytes_at_app, Z.add_0_l. intros H.
  apply app_same_length in H; [| apply bytes_at_length].
  destruct H as [H1 H2]. split; [exact H1 |]. now rewrite bytes_at_advance.
Qed.

(** X14. Instructions follow one another without carrying anything
    over: when memory holds a first instruction and behind it a second one,
    decoding at [pc] consumes the first, and decoding at [pc + m_size]
    finds the bytes of the second there and accumulates its total from 0,
    from its own bytes alone. *)
Theorem decode_next_instruction :
  forall (mem : Memory) (pc : Address) (delta : Z)
         (result result' : MachineInstruction)
         (prefixes1 : list Byte) (terminal1 : Byte)
         (prefixes2 : list Byte) (terminal2 : Byte) (fuel : nat),
    forallb is_prefix prefixes1 = true -> is_prefix terminal1 = false ->
    forallb is_prefix prefixes2 = true -> is_prefix terminal2 = false ->
    stream_at mem pc delta ((prefixes1 ++ [terminal1]) ++ (prefixes2 ++ [terminal2])) ->
    (List.length prefixes1 < fuel)%nat ->
    (List.length prefixes2 < fuel)%nat ->
    exists ret1 r1 ret2 r2,
      decodeInstruction fuel mem pc delta result = Some (Return ret1 r1) /\
      m_size r1 = Z.of_nat (List.length prefixes1) + 1 /\
      stream_at mem (Address_plus pc (m_size r1)) delta (prefixes2 ++ [terminal2]) /\
      decodeInstruction fuel mem (Address_plus pc (m_size r1)) delta result'
        = Some (Return ret2 r2) /\
      m_size r2 = Z.of_nat (List.length prefixes2) + 1 /\
      (is_immediate_code (functionCode_of terminal2) = true ->
         m_operands r2 =
           m_operands result' ++ [Const_int (accumulate (prefixes2 ++ [terminal2]))]) /\
      (is_jump_code (functionCode_of terminal2) = true ->
         m_operands r2 =
           m_operands result'
           ++ [Const_addr (addr_wrap (pc + m_size r1 + m_size r2
                                      + accumulate (prefixes2 ++ [terminal2])))]) /\
      (functionCode_of terminal2 = 15 ->
         ret2 = match getInstructionName (accumulate (prefixes2 ++ [terminal2])) with
                | Some _ => true
                | None => false
                end).
Proof.
  intros mem pc delta result result' prefixes1 terminal1 prefixes2 terminal2 fuel
         Hp1 Ht1 Hp2 Ht2 Hmem Hf1 Hf2.
  apply stream_at_app in Hmem. destruct Hmem as [Hm1 Hm2].
  rewrite length_app in Hm2. cbn [List.length] in Hm2.
  replace (Z.of_nat (List.length prefixes1 + 1))
    with (Z.of_nat (List.length prefixes1) + 1) in Hm2 by lia.
  destruct (decode_chain mem pc delta result prefixes1 terminal1 fuel
              Hp1 Ht1 Hm1 Hf1) as (ret1 & r1 & D1 & F1).
  destruct F1 as (_ & S1 & _).
  rewrite <- S1 in Hm2.
  destruct (decode_chain mem (Address_plus pc (m_size r1)) delta result'
              prefixes2 terminal2 fuel Hp2 Ht2 Hm2 Hf2) as (ret2 & r2 & D2 & F2).
  destruct F2 as (_ & S2 & J2 & I2 & O2).
  exists ret1, r1, ret2, r2.
  split; [exact D1 |]. split; [exact S1 |]. split; [exact Hm2 |].
  split; [exact D2 |]. split; [exact S2 |].
  split; [intros H; apply I2 in H; tauto |].
  split.
  - intros H. apply J2 in H. destruct H as (_ & _ & _ & H). rewrite H, S2.
    do 3 f_equal. unfold Address_plus, addr_wrap.
    rewrite <- !(Z.add_assoc ((pc + m_size r1) mod 2 ^ addr_bits)).
    rewrite Zplus_mod_idemp_l. f_equal. lia.
  - intros H. apply O2 in H. destruct H as [_ H].
    destruct (getInstructionName _); tauto.
Qed.

(** ** The operand text *)

Lemma jump_code_exclusive fc :
  is_jump_code fc = true -> is_immediate_code fc = false /\ fc <> 15.
Proof.
  unfold is_jump_code. cbn [existsb]. intros H.
  rewrite !orb_true_iff in H.
  destruct H as [H | [H | [H | H]]]; try discriminate;
    apply Z.eqb_eq in H; subst fc; (split; [reflexivity | discriminate]).
Qed.

(** X15. The operand text is the operand in hexadecimal.  For a jump or
    a call it reads back as the destination address; for the immediate
    family it reads back as the total when the total is not negative and as
    [total + 2 ^ 32] when it is, the [int] being printed as unsigned; an
    operate instruction has the empty text. *)
Theorem operand_text_agrees :
  forall (mem : Memory) (pc : Address) (delta : Z) (result : MachineInstruction)
         (fuel : nat) (r : MachineInstruction),
    0 <= addr_bits ->
    decodeInstruction fuel mem pc delta result = Some (Return true r) ->
    let fc := functionCode_of (byte_at mem pc delta (m_size r - 1)) in
    (is_jump_code fc = true ->
       exists dest,
         m_operands r = m_operands result ++ [Const_addr dest] /\
         Z.of_N (HexString.to_N (m_opstr r)) = dest) /\
    (is_immediate_code fc = true ->
       exists total,
         m_operands r = m_operands result ++ [Const_int total] /\
         (0 <= total -> Z.of_N (HexString.to_N (m_opstr r)) = total) /\
         (total < 0 -> Z.of_N (HexString.to_N (m_opstr r)) = total + 2 ^ 32)) /\
    (fc = 15 -> m_opstr r = "").
Proof.
  intros mem pc delta result fuel r Hbits H fc.
  apply decode_result_shape in H. destruct H as (Hterm & _ & _ & E).
  fold fc in E.
  set (T := accumulate (bytes_at mem pc delta 0 (Z.to_nat (m_size r)))) in *.
  assert (RT : - 2 ^ 31 <= T < 2 ^ 31) by apply accumulate_wrap_int.
  unfold terminal_result in E.
  destruct (terminal_code_cases _ Hterm) as [J | [[J I] | [J [I F]]]];
    fold fc in J; try fold fc in I; try fold fc in F; rewrite J in E.
  - injection E as ->. cbn [m_operands m_opstr m_size].
    destruct (jump_code_exclusive _ J) as [NI NF].
    split; [| split]; [| intros C; rewrite C in NI; discriminate NI
                        | intros C; contradiction].
    intros _. eexists. split; [reflexivity |].
    unfold hex_0x. rewrite HexString.to_N_of_N. apply Z2N.id.
    unfold addr_wrap. apply Z.mod_pos_bound. apply Z.pow_pos_nonneg; lia.
  - rewrite I in E. injection E as ->. cbn [m_operands m_opstr m_size].
    split; [| split]; [intros C; congruence | |
                        intros C; rewrite C in I; discriminate I].
    intros _. exists T. split; [reflexivity |].
    unfold hex_0x. rewrite HexString.to_N_of_N.
    pose proof (Z.mod_pos_bound T (2 ^ 32) ltac:(lia)) as B.
    rewrite Z2N.id by lia. split; intros S.
    + apply Z.mod_small. lia.
    + symmetry. apply Z.mod_unique with (q := -1); lia.
  - rewrite I in E. destruct (getInstructionName T) as [name |];
      [| discriminate E].
    injection E as ->. cbn [m_operands m_opstr m_size].
    split; [| split]; [intros C; congruence | intros C; congruence |].
    reflexivity.
Qed.

(** ** What a result depends on *)

Lemma bytes_at_same mem mem' pc pc' delta delta' n :
  (forall i, 0 <= i < Z.of_nat n ->
     byte_at mem' pc' delta' i = byte_at mem pc delta i) ->
  bytes_at mem' pc' delta' 0 n = bytes_at mem pc delta 0 n.
Proof.
  intros H. unfold bytes_at. apply map_ext_in. intros i Hi.
  apply in_seq in Hi. apply H. lia.
Qed.

(** X16. A successful decode takes nothing from the record it is given
    but the operand list: two records with the same operands give the same
    decoded instruction. *)
Theorem decode_success_ignores_stale_fields :
  forall (mem : Memory) (pc : Address) (delta : Z)
         (result result' : MachineInstruction) (fuel : nat)
         (r : MachineInstruction),
    m_operands result = m_operands result' ->
    decodeInstruction fuel mem pc delta result = Some (Return true r) ->
    decodeInstruction fuel mem pc delta result' = Some (Return true r).
Proof.
  intros mem pc delta result result' fuel r Hops H.
  apply decode_result_full in H. destruct H as (n & Hn & Hpre & Hterm & E).
  apply decode_result_full. exists n. repeat (split; [assumption |]).
  rewrite E. unfold terminal_result in *. rewrite Hops.
  destruct (is_jump_code _); [reflexivity |].
  destruct (is_immediate_code _); [reflexivity |].
  destruct (getInstructionName _); [reflexivity | discriminate E].
Qed.

(** X17. Apart from [m_addr] and the targets of jumps and calls, a
    decoded instruction does not depend on where its bytes lie: the same
    bytes at another address give the same returned flag, length,
    identifier, mnemonic and variant identifier, and for every instruction
    that is not a jump or a call the same operands and operand text. *)
Theorem decode_is_position_independent :
  forall (mem mem' : Memory) (pc pc' : Address) (delta delta' : Z)
         (result : MachineInstruction) (fuel : nat)
         (ret : bool) (r : MachineInstruction),
    decodeInstruction fuel mem pc delta result = Some (Return ret r) ->
    (forall i, 0 <= i < m_size r ->
       byte_at mem' pc' delta' i = byte_at mem pc delta i) ->
    exists r',
      decodeInstruction fuel mem' pc' delta' result = Some (Return ret r') /\
      m_size r' = m_size r /\ m_id r' = m_id r /\ m_mnem r' = m_mnem r /\
      m_variantID r' = m_variantID r /\ m_valid r' = m_valid r /\
      (is_jump_code (functionCode_of (byte_at mem pc delta (m_size r - 1))) = false ->
       m_operands r' = m_operands r /\ m_opstr r' = m_opstr r).
Proof.
  intros mem mem' pc pc' delta delta' result fuel ret r H Hsame.
  apply decode_result_full in H. destruct H as (n & Hn & Hpre & Hterm & E).
  pose proof (terminal_result_size _ _ _ _ _ _ _ E) as Hsize.
  rewrite Hsize in Hsame |- *.
  replace (Z.of_nat n + 1 - 1) with (Z.of_nat n) by lia.
  assert (Hn' : bytes_at mem' pc' delta' 0 n = bytes_at mem pc delta 0 n).
  { apply bytes_at_same. intros i Hi. apply Hsame. lia. }
  assert (HSn : bytes_at mem' pc' delta' 0 (S n) = bytes_at mem pc delta 0 (S n)).
  { apply bytes_at_same. intros i Hi. apply Hsame. lia. }
  assert (Hlast : byte_at mem' pc' delta' (Z.of_nat n)
                  = byte_at mem pc delta (Z.of_nat n)).
  { apply Hsame. lia. }
  set (fc := functionCode_of (byte_at mem pc delta (Z.of_nat n))) in *.
  set (T := accumulate (bytes_at mem pc delta 0 (S n))) in *.
  assert (D : decodeInstruction fuel mem' pc' delta' result
              = Some (terminal_result pc' fc T (Z.of_nat n + 1) result)).
  { apply decode_result_full. exists n. rewrite Hn', HSn, Hlast. auto. }
  rewrite D. unfold terminal_result in *.
  destruct (is_jump_code fc).
  - injection E as -> ->. eexists. split; [reflexivity |].
    cbn [m_size m_id m_mnem m_variantID m_valid]. repeat split; discriminate.
  - destruct (is_immediate_code fc).
    + injection E as -> ->. eexists. split; [reflexivity |].
      cbn [m_size m_id m_mnem m_variantID m_valid m_operands m_opstr].
      repeat split.
    + destruct (getInstructionName T); injection E as -> ->;
        (eexists; split; [reflexivity |]);
        cbn [m_size m_id m_mnem m_variantID m_valid m_operands m_opstr];
        repeat split.
Qed.

End ST20.

(** ** Instances *)

(** C3, at the total 0.  The byte [0xF0] (operate with total 0, "rev") is
    decoded successfully, and its identifier is not the marker bit with the
    total, [OPR_MASK | 0]: the test [total > 0] sends the total 0 through
    the fold of the negative range, which gives -16, all bits set from bit
    4 up. *)
Theorem operate_rev_identifier :
  exists r,
    decodeInstruction 64 1 (mem_of_list 4096 [Init.Byte.xf0] Init.Byte.x00)
                      4096 0 blank_insn = Some (Return true r) /\
    m_size r = 1 /\ m_mnem r = "rev" /\
    getInstructionName 0 = opr_nonneg 0 /\
    m_id r = -16 /\
    m_id r <> Z.lor OPR_MASK 0.
Proof.
  eexists. split; [reflexivity |]. cbn [m_size m_mnem m_id].
  repeat split. discriminate.
Qed.

Lemma prefix_chain_decoded_witness :
  exists ret r,
    decodeInstruction 64 3
      (mem_of_list 4096 [Init.Byte.x22; Init.Byte.x20; Init.Byte.x43] Init.Byte.x00)
      4096 0 blank_insn = Some (Return ret r) /\
    m_size r = 3 /\
    m_operands r = [Const_int 0x203].
Proof.
  destruct (prefix_chain_decoded 64
              (mem_of_list 4096 [Init.Byte.x22; Init.Byte.x20; Init.Byte.x43]
                           Init.Byte.x00)
              4096 0 blank_insn [Init.Byte.x22; Init.Byte.x20] Init.Byte.x43 3%nat)
    as (ret & r & H1 & H2 & H3 & _);
    [reflexivity | reflexivity | vm_compute; reflexivity | cbn; lia |].
  exists ret, r. split; [exact H1 |]. split; [exact H2 |]. exact (H3 eq_refl).
Defined.

Lemma operate_miss_is_failure_witness :
  exists r,
    decodeInstruction 64 2
      (mem_of_list 4096 [Init.Byte.x21; Init.Byte.xf1] Init.Byte.x00)
      4096 0 blank_insn = Some (Return false r) /\
    m_valid r = false /\ m_size r = 2.
Proof.
  apply (operate_miss_is_failure 64
           (mem_of_list 4096 [Init.Byte.x21; Init.Byte.xf1] Init.Byte.x00)
           4096 0 blank_insn [Init.Byte.x21] Init.Byte.xf1 2%nat);
    [reflexivity | reflexivity | vm_compute; reflexivity | cbn; lia
    | reflexivity | reflexivity].
Defined.

Lemma jump_destination_witness :
  accumulate [Init.Byte.x22; Init.Byte.x20; Init.Byte.x93] = 0x203 /\
  exists r,
    decodeInstruction 64 3
      (mem_of_list 4096 [Init.Byte.x22; Init.Byte.x20; Init.Byte.x93] Init.Byte.x00)
      4096 0 blank_insn = Some (Return true r) /\
    m_addr r = 4096 /\ m_size r = 3 /\ m_id r = ST20_INS_CALL /\
    m_operands r = [Const_addr (4096 + 3 + 0x203)].
Proof.
  split; [reflexivity |].
  destruct (proj1 (jump_destination 64)
              (mem_of_list 4096 [Init.Byte.x22; Init.Byte.x20; Init.Byte.x93]
                           Init.Byte.x00)
              4096 0 blank_insn [Init.Byte.x22; Init.Byte.x20] Init.Byte.x93 3%nat)
    as (r & Hdec & Haddr & Hsize & Hid & _ & Hexact);
    [reflexivity | reflexivity | vm_compute; reflexivity | cbn; lia |].
  exists r. split; [exact Hdec |]. split; [exact Haddr |].
  split; [exact Hsize |]. split; [exact Hid |].
  apply Hexact. vm_compute. split; [discriminate | reflexivity].
Defined.

(** C5 as the specification states it fails: the stream is the single
    prefix byte [0x21] and memory goes on with [0x43] (ldc 3).  No amount of
    fuel makes [decodeInstruction] return a failure; it returns success
    after two bytes, one more than the stream has. *)
Lemma unterminated_chain_counterexample :
  stream_at 64 (mem_of_list 4096 [Init.Byte.x21] Init.Byte.x43) 4096 0
            [Init.Byte.x21] /\
  forallb is_prefix [Init.Byte.x21] = true /\
  (forall fuel r,
     decodeInstruction 64 fuel (mem_of_list 4096 [Init.Byte.x21] Init.Byte.x43)
                       4096 0 blank_insn <> Some (Return false r)) /\
  exists r,
    decodeInstruction 64 2 (mem_of_list 4096 [Init.Byte.x21] Init.Byte.x43)
                      4096 0 blank_insn = Some (Return true r) /\
    m_size r = 2 /\ m_operands r = [Const_int 0x13].
Proof.
  split; [vm_compute; reflexivity |]. split; [reflexivity |]. split.
  - intros [| [| fuel]] r; discriminate.
  - eexists. split; [reflexivity |]. split; reflexivity.
Qed.

Lemma prefix_chain_reads_on_witness :
  decodeInstruction 64 1 (mem_of_list 4096 [Init.Byte.x21] Init.Byte.x43)
                    4096 0 blank_insn = None.
Proof.
  apply (proj1 (prefix_chain_reads_on 64
                  (mem_of_list 4096 [Init.Byte.x21] Init.Byte.x43)
                  4096 0 blank_insn [Init.Byte.x21]
                  ltac:(vm_compute; reflexivity) ltac:(reflexivity))).
  cbn. lia.
Defined.

Lemma negative_total_lookup_witness :
  getInstructionName (-17) = Some "iret" /\
  exists r,
    decodeInstruction 64 2
      (mem_of_list 4096 [Init.Byte.x61; Init.Byte.xff] Init.Byte.x00)
      4096 0 blank_insn = Some (Return true r) /\
    m_size r = 2 /\ m_mnem r = "iret" /\ m_variantID r = "IRET".
Proof.
  destruct (negative_total_lookup 64) as (_ & H & _ & E).
  split.
  - apply H; [lia | reflexivity].
  - apply (E (mem_of_list 4096 [Init.Byte.x61; Init.Byte.xff] Init.Byte.x00)
             4096 0 blank_insn).
    vm_compute; reflexivity.
Defined.

Lemma decoded_length_positive_witness :
  decodeInstruction 64 2
    (mem_of_list 4096 [Init.Byte.x21; Init.Byte.xf1] Init.Byte.x00)
    4096 0 blank_insn
  = Some (Return false (mkInsn 0 0 2 "" "" [] "" false IClass_other)) /\
  1 <= m_size (mkInsn 0 0 2 "" "" [] "" false IClass_other).
Proof.
  split; [reflexivity |].
  apply (decoded_length_positive 64
           (mem_of_list 4096 [Init.Byte.x21; Init.Byte.xf1] Init.Byte.x00)
           4096 0 blank_insn 2%nat false
           (mkInsn 0 0 2 "" "" [] "" false IClass_other)).
  reflexivity.
Defined.

Lemma lookup_key_and_lift_failure_witness :
  lookup_key "ld.c" = "LDC" /\
  fst (snd (liftInstruction unit
              (fun e => match e with Const_int _ => true | _ => false end)
              (fun e => match e with Const_int i => i | _ => 0 end)
              (mkDecoder unit None (mkDict unit (fun _ => None)))
              (mkInsn 4096 4 1 "ldc" "0x3" [Const_int 3] "LDC" true NOP)
              (mkDecodeResult unit IClass_other true None))) = false.
Proof.
  split; [reflexivity |].
  apply (lookup_key_and_lift_failure 64 unit
           (fun e => match e with Const_int _ => true | _ => false end)
           (fun e => match e with Const_int i => i | _ => 0 end)
           (mkDecoder unit None (mkDict unit (fun _ => None)))
           (mkInsn 4096 4 1 "ldc" "0x3" [Const_int 3] "LDC" true NOP)
           (mkDecodeResult unit IClass_other true None)).
  reflexivity.
Defined.

Lemma debug_trace_is_diagnostic_only_witness :
  snd (instantiateRTL unit
         (fun e => match e with Const_int _ => true | _ => false end)
         (fun e => match e with Const_int i => i | _ => 0 end)
         (mkDecoder unit (Some (mkProg (mkProject (mkSettings true))))
            (mkDict unit (fun name =>
               if String.eqb name "LDC" then Some (fun _ => [tt]) else None)))
         (mkInsn 4096 4 2 "ldc" "0x203" [Const_int 0x203; Const_int 3] "LDC"
                 true NOP))
  = snd (instantiateRTL unit
         (fun e => match e with Const_int _ => true | _ => false end)
         (fun e => match e with Const_int i => i | _ => 0 end)
         (mkDecoder unit None
            (mkDict unit (fun name =>
               if String.eqb name "LDC" then Some (fun _ => [tt]) else None)))
         (mkInsn 4096 4 2 "ldc" "0x203" [Const_int 0x203; Const_int 3] "LDC"
                 true NOP)) /\
  fst (instantiateRTL unit
         (fun e => match e with Const_int _ => true | _ => false end)
         (fun e => match e with Const_int i => i | _ => 0 end)
         (mkDecoder unit (Some (mkProg (mkProject (mkSettings true))))
            (mkDict unit (fun name =>
               if String.eqb name "LDC" then Some (fun _ => [tt]) else None)))
         (mkInsn 4096 4 2 "ldc" "0x203" [Const_int 0x203; Const_int 3] "LDC"
                 true NOP))
  = [OutAddress 4096; OutStr ": "; OutStr "LDC"; OutStr " ";
     OutStr "0x"; OutNumber 0x203 16; OutStr " ";
     OutInt 3; OutStr " "; OutChar "010"%char].
Proof.
  destruct (debug_trace_is_diagnostic_only unit
              (fun e => match e with Const_int _ => true | _ => false end)
              (fun e => match e with Const_int i => i | _ => 0 end)
              (mkDecoder unit (Some (mkProg (mkProject (mkSettings true))))
                 (mkDict unit (fun name =>
                    if String.eqb name "LDC" then Some (fun _ => [tt]) else None)))
              (mkDecoder unit None
                 (mkDict unit (fun name =>
                    if String.eqb name "LDC" then Some (fun _ => [tt]) else None)))
              (mkInsn 4096 4 2 "ldc" "0x203" [Const_int 0x203; Const_int 3] "LDC"
                      true NOP)
              (mkDecodeResult unit IClass_other true None) eq_refl)
    as (H1 & _ & H3 & _).
  split; [exact H1 | exact H3].
Defined.

(** ** Instances of the further properties *)

Lemma decode_reads_only_its_bytes_witness :
  decodeInstruction 64 5
    (mem_of_list 4096 [Init.Byte.x22; Init.Byte.x20; Init.Byte.x43] Init.Byte.xff)
    4096 0 blank_insn = Some (Return true insn_ldc).
Proof.
  apply (decode_reads_only_its_bytes 64 mem_ldc
           (mem_of_list 4096 [Init.Byte.x22; Init.Byte.x20; Init.Byte.x43]
                        Init.Byte.xff)
           4096 0 blank_insn 3%nat 5%nat true insn_ldc).
  - reflexivity.
  - cbn [m_size insn_ldc]. intros i Hi.
    assert (C : i = 0 \/ i = 1 \/ i = 2) by lia.
    destruct C as [-> | [-> | ->]]; reflexivity.
  - cbn. lia.
Defined.

Lemma decode_failure_is_operate_miss_witness :
  functionCode_of (byte_at 64 mem_miss 4096 0 1) = 15 /\
  getInstructionName (accumulate [Init.Byte.x21; Init.Byte.xf1]) = None.
Proof.
  apply (proj1 (proj1 (decode_failure_is_operate_miss 64 mem_miss 4096 0
                         blank_insn 2%nat false insn_miss eq_refl))).
  reflexivity.
Defined.

Lemma decode_success_fields_witness :
  m_addr insn_ldc = 4096 /\ m_valid insn_ldc = true /\ m_iclass insn_ldc = NOP /\
  m_variantID insn_ldc = toUpper (m_mnem insn_ldc).
Proof.
  destruct (decode_success_fields 64 mem_ldc 4096 0 blank_insn 3%nat insn_ldc
              eq_refl) as (H1 & H2 & H3 & H4 & _).
  repeat split; assumption.
Defined.

Lemma identifier_tells_class_witness :
  m_id insn_ldc = 4 /\ m_mnem insn_ldc = functionName (m_id insn_ldc) /\
  Z.testbit (m_id insn_ldc) 16 = false.
Proof.
  destruct (proj2 (identifier_tells_class 64 mem_ldc 4096 0 blank_insn 3%nat
                     insn_ldc eq_refl)) as (H1 & _ & H3 & H4).
  - discriminate.
  - repeat split; assumption.
Defined.

Lemma getInstructionName_domain_witness : getInstructionName 0x17D = None.
Proof. apply (proj1 (getInstructionName_domain 0x17D)). right. lia. Defined.

Lemma operate_names_distinct_witness :
  0xF6 = 0xF7 \/ ((0xF6 = 0xF6 \/ 0xF6 = 0xF7) /\ (0xF7 = 0xF6 \/ 0xF7 = 0xF7)).
Proof.
  apply (proj1 (operate_names_distinct 0xF6 0xF7 "null" eq_refl)).
  reflexivity.
Defined.

Lemma operate_id_distinct_witness : operate_id 5 = 0x10000 + 5.
Proof.
  apply (proj1 (operate_id_distinct 5 "add" eq_refl)). lia.
Defined.


Lemma decoded_variant_is_lookup_key_witness :
  toUpper (remove_dot (m_variantID insn_ldc)) = m_variantID insn_ldc.
Proof.
  apply (proj1 (decoded_variant_is_lookup_key 64 unit
                  (fun e => match e with Const_int _ => true | _ => false end)
                  (fun e => match e with Const_int i => i | _ => 0 end)
                  mem_ldc 4096 0 blank_insn 3%nat insn_ldc
                  (mkDecoder unit None (mkDict unit (fun _ => None)))
                  eq_refl)).
Defined.

Lemma pfix_chain_spells_hex_witness :
  exists r,
    decodeInstruction 64 3 mem_ldc 4096 0 blank_insn = Some (Return true r) /\
    m_operands r = [Const_int (hex_value [2; 0; 3])].
Proof.
  destruct (pfix_chain_spells_hex 64 mem_ldc 4096 0 blank_insn
              [Init.Byte.x22; Init.Byte.x20] Init.Byte.x43 3%nat)
    as (r & D & O & _);
    [reflexivity | reflexivity | vm_compute; reflexivity | cbn; lia | cbn; lia |].
  exists r. split; [exact D | exact O].
Defined.

Lemma nfix_chain_is_negative_witness :
  exists r total,
    decodeInstruction 64 2
      (mem_of_list 4096 [Init.Byte.x61; Init.Byte.x45] Init.Byte.x00)
      4096 0 blank_insn = Some (Return true r) /\
    m_operands r = [Const_int total] /\ total < 0.
Proof.
  destruct (nfix_chain_is_negative 64
              (mem_of_list 4096 [Init.Byte.x61; Init.Byte.x45] Init.Byte.x00)
              4096 0 blank_insn Init.Byte.x61 [] Init.Byte.x45 2%nat)
    as (r & total & D & O & N & _);
    [reflexivity | reflexivity | reflexivity | vm_compute; reflexivity
    | cbn; lia | cbn; lia |].
  exists r, total. split; [exact D |]. split; [exact O | exact N].
Defined.

Lemma immediate_wraps_once_witness :
  exists r total,
    decodeInstruction 64 3 mem_ldc 4096 0 blank_insn = Some (Return true r) /\
    m_operands r = [Const_int total] /\ - 2 ^ 31 <= total < 2 ^ 31.
Proof.
  destruct (immediate_wraps_once 64 mem_ldc 4096 0 blank_insn
              [Init.Byte.x22; Init.Byte.x20] Init.Byte.x43 3%nat)
    as (r & total & D & O & R & _);
    [reflexivity | reflexivity | vm_compute; reflexivity | cbn; lia |].
  exists r, total. split; [exact D |]. split; [exact O | exact R].
Defined.

Lemma long_chain_keeps_last_eight_witness :
  exists r r',
    decodeInstruction 64 10
      (mem_of_list 4096
         [Init.Byte.x2f; Init.Byte.x6a; Init.Byte.x21; Init.Byte.x22;
          Init.Byte.x23; Init.Byte.x24; Init.Byte.x25; Init.Byte.x26;
          Init.Byte.x27; Init.Byte.x48] Init.Byte.x00)
      4096 0 blank_insn = Some (Return true r) /\
    decodeInstruction 64 10
      (mem_of_list 8192
         [Init.Byte.x21; Init.Byte.x22; Init.Byte.x23; Init.Byte.x24;
          Init.Byte.x25; Init.Byte.x26; Init.Byte.x27; Init.Byte.x48]
         Init.Byte.x00)
      8192 0 blank_insn = Some (Return true r') /\
    m_operands r = m_operands r' /\
    m_size r = m_size r' + 2.
Proof.
  apply (long_chain_keeps_last_eight 64
           (mem_of_list 4096
              [Init.Byte.x2f; Init.Byte.x6a; Init.Byte.x21; Init.Byte.x22;
               Init.Byte.x23; Init.Byte.x24; Init.Byte.x25; Init.Byte.x26;
               Init.Byte.x27; Init.Byte.x48] Init.Byte.x00)
           (mem_of_list 8192
              [Init.Byte.x21; Init.Byte.x22; Init.Byte.x23; Init.Byte.x24;
               Init.Byte.x25; Init.Byte.x26; Init.Byte.x27; Init.Byte.x48]
              Init.Byte.x00)
           4096 8192 0 0 blank_insn
           [Init.Byte.x2f; Init.Byte.x6a]
           [Init.Byte.x21; Init.Byte.x22; Init.Byte.x23; Init.Byte.x24;
            Init.Byte.x25; Init.Byte.x26; Init.Byte.x27] Init.Byte.x48 10%nat);
    [reflexivity | reflexivity | reflexivity | reflexivity
    | vm_compute; reflexivity | vm_compute; reflexivity | cbn; lia].
Defined.

Lemma decode_next_instruction_witness :
  exists ret1 r1 ret2 r2,
    decodeInstruction 64 3
      (mem_of_list 4096 [Init.Byte.x22; Init.Byte.x20; Init.Byte.x43;
                         Init.Byte.x61; Init.Byte.x45] Init.Byte.x00)
      4096 0 blank_insn = Some (Return ret1 r1) /\
    m_size r1 = 3 /\
    decodeInstruction 64 3
      (mem_of_list 4096 [Init.Byte.x22; Init.Byte.x20; Init.Byte.x43;
                         Init.Byte.x61; Init.Byte.x45] Init.Byte.x00)
      (Address_plus 64 4096 (m_size r1)) 0 blank_insn = Some (Return ret2 r2) /\
    m_size r2 = 2 /\
    m_operands r2 = [Const_int (-27)].
Proof.
  destruct (decode_next_instruction 64
              (mem_of_list 4096 [Init.Byte.x22; Init.Byte.x20; Init.Byte.x43;
                                 Init.Byte.x61; Init.Byte.x45] Init.Byte.x00)
              4096 0 blank_insn blank_insn
              [Init.Byte.x22; Init.Byte.x20] Init.Byte.x43
              [Init.Byte.x61] Init.Byte.x45 3%nat)
    as (ret1 & r1 & ret2 & r2 & D1 & S1 & _ & D2 & S2 & I2 & _);
    [reflexivity | reflexivity | reflexivity | reflexivity
    | vm_compute; reflexivity | cbn; lia | cbn; lia |].
  exists ret1, r1, ret2, r2.
  split; [exact D1 |]. split; [exact S1 |]. split; [exact D2 |].
  split; [exact S2 |]. exact (I2 eq_refl).
Defined.

Lemma operand_text_agrees_witness :
  exists dest,
    m_operands insn_call = m_operands blank_insn ++ [Const_addr dest] /\
    Z.of_N (HexString.to_N (m_opstr insn_call)) = dest.
Proof.
  apply (proj1 (operand_text_agrees 64 mem_call 4096 0 blank_insn 3%nat insn_call
                  ltac:(lia) eq_refl)).
  reflexivity.
Defined.

Lemma decode_success_ignores_stale_fields_witness :
  decodeInstruction 64 3 mem_ldc 4096 0
    (mkInsn 1 2 3 "stale" "text" [] "OLD" true IClass_other)
  = Some (Return true insn_ldc).
Proof.
  apply (decode_success_ignores_stale_fields 64 mem_ldc 4096 0 blank_insn
           (mkInsn 1 2 3 "stale" "text" [] "OLD" true IClass_other) 3%nat insn_ldc);
    reflexivity.
Defined.

Lemma decode_is_position_independent_witness :
  exists r',
    decodeInstruction 64 3
      (mem_of_list 8192 [Init.Byte.x22; Init.Byte.x20; Init.Byte.x43] Init.Byte.x00)
      8000 192 blank_insn = Some (Return true r') /\
    m_size r' = 3 /\ m_id r' = 4 /\ m_mnem r' = "ldc" /\
    m_operands r' = [Const_int 0x203].
Proof.
  destruct (decode_is_position_independent 64 mem_ldc
              (mem_of_list 8192 [Init.Byte.x22; Init.Byte.x20; Init.Byte.x43]
                           Init.Byte.x00)
              4096 8000 0 192 blank_insn 3%nat true insn_ldc eq_refl)
    as (r' & D & S & I & M & _ & _ & O).
  - cbn [m_size insn_ldc]. intros i Hi.
    assert (C : i = 0 \/ i = 1 \/ i = 2) by lia.
    destruct C as [-> | [-> | ->]]; reflexivity.
  - exists r'. split; [exact D |]. split; [exact S |]. split; [exact I |].
    split; [exact M |]. apply O. reflexivity.
Defined.
